(** * Events code generator of GDevelop Core: a shallow embedding

    The development follows [Core/GDCore/Events/CodeGeneration/EventsCodeGenerator.cpp]
    and the registries declared in [Core/GDCore/Project/ObjectsContainer.h].

    Conventions of the embedding:
    - [gd::String] is a [string]; [size()]/[length()] is [String.length],
      [substr(pos, len)] is [String.substring pos len], [+] is [+:+];
    - [std::vector<T>] is a [list T], read with stdpp's lookup [l !! i];
      an element access outside the vector is undefined in C++ and shows
      up as [None] in the generator monad;
    - [std::map<gd::String, gd::String>] is a [gmap string string] and
      [std::set<size_t>] a [gset Z] of values below [2 ^ 64];
    - the mutable members of one [EventsCodeGenerator] are the record
      [Generator], threaded through every member function. *)

From Stdlib Require Import ZArith Lia Ascii String.
From stdpp Require Import base option list list_numbers gmap sets strings pretty.

Local Open Scope Z_scope.
Local Open Scope nat_scope.

(* stdpp freezes [String.append] under [simpl]; the proofs below compute
   with string literals, so let it unfold on a constructor. *)
#[local] Arguments String.append !s1 s2 : simpl nomatch.

(** ** Characters and strings *)

Module GdString.

Definition backslash : ascii := "092"%char.
Definition dquote : ascii := "034"%char.
Definition cr : ascii := "013"%char.
Definition lf : ascii := "010"%char.

(** The one-character strings the escaping works with. *)
Definition BS : string := String backslash "".
Definition DQ : string := String dquote "".
Definition CR : string := String cr "".
Definition LF : string := String lf "".

(** [gd::String::empty()]. *)
Definition empty (s : string) : bool :=
  match s with
  | EmptyString => true
  | String _ _ => false
  end.

(** [gd::String::From(i)] for an index: its decimal digits. *)
Definition From (i : nat) : string := pretty i.

(** Modelled from the spec: [gd::String::FindAndReplace(search, replacement)]
    is declared in [GDCore/String.h], which is not among the sources at hand.
    It replaces every occurrence of [search], scanning left to right and
    never looking again at text it has just written.  Every call site of
    the generator searches for a one-character string, so the search text
    is a character here. *)
Fixpoint FindAndReplace (search : ascii) (replacement : string) (s : string)
  : string :=
  match s with
  | EmptyString => EmptyString
  | String c rest =>
      if decide (c = search)
      then replacement +:+ FindAndReplace search replacement rest
      else String c (FindAndReplace search replacement rest)
  end.

End GdString.

Import GdString.

(** ** String escaping (lines 821-833) *)

Definition ConvertToString (plainString : string) : string :=
  FindAndReplace dquote (BS +:+ DQ)
    (FindAndReplace lf (BS +:+ "n")
       (FindAndReplace cr (BS +:+ "r")
          (FindAndReplace backslash (BS +:+ BS) plainString))).

Definition ConvertToStringExplicit (plainString : string) : string :=
  DQ +:+ ConvertToString plainString +:+ DQ.

(** What a reader of the generated literal sees: scanning from the left, a
    backslash must open one of the four escape pairs, and a double quote may
    only occur as the second character of such a pair. *)
Definition escapable (c : ascii) : bool :=
  bool_decide (c = backslash) || bool_decide (c = "r"%char)
  || bool_decide (c = "n"%char) || bool_decide (c = dquote).

Fixpoint wellEscaped (s : string) : bool :=
  match s with
  | EmptyString => true
  | String c rest =>
      if decide (c = backslash) then
        match rest with
        | EmptyString => false
        | String d rest' => escapable d && wellEscaped rest'
        end
      else if decide (c = dquote) then false
      else wellEscaped rest
  end.

(** The escaped form of one character, as the four passes leave it. *)
Definition escapeChar (c : ascii) : string :=
  if decide (c = backslash) then BS +:+ BS
  else if decide (c = cr) then BS +:+ "r"
  else if decide (c = lf) then BS +:+ "n"
  else if decide (c = dquote) then BS +:+ DQ
  else String c "".

Fixpoint escapeAll (s : string) : string :=
  match s with
  | EmptyString => EmptyString
  | String c rest => escapeChar c +:+ escapeAll rest
  end.

(** ** Metadata of instructions *)

Module ParameterMetadata.
Record t := Build { type : string; supplementaryInformation : string }.
End ParameterMetadata.

Module ExtraInformation.
(** Modelled from the spec: the access kinds of [InstructionMetadata.h]
    (not among the sources at hand).  The generator names
    [MutatorAndOrAccessor] and [Mutators]; every other kind takes the
    compound-assignment path. *)
Inductive AccessType := Reference | MutatorAndOrAccessor | Mutators.

Record t := Build {
  type : string;
  accessType : AccessType;
  functionCallName : string;
  optionalAssociatedInstruction : string;
  optionalMutators : gmap string string
}.
End ExtraInformation.

Module InstructionMetadata.
Record t := Build {
  parameters : list ParameterMetadata.t;
  codeExtraInformation : ExtraInformation.t
}.
End InstructionMetadata.

Record ObjectMetadata := { className : string; includeFiles : list string }.
Record BehaviorMetadata := { behaviorIncludeFiles : list string }.

(** Modelled from the spec: an instruction of [Instruction.h] (not among the
    sources at hand) has a type key, an inverted flag, ordered textual
    parameters and nested sub-instructions. *)
#[warnings="-register-all"]
Inductive Instruction := MakeInstruction {
  GetType : string;
  IsInverted : bool;
  GetParameters : list string;
  GetSubInstructions : list Instruction
}.

(** Modelled from the spec: of the scope context
    ([EventsCodeGenerationContext.h], not among the sources at hand) the
    functions below read the object being iterated, the empty string when
    there is none, and the names of the object lists it has asked for. *)
Record EventsCodeGenerationContext := {
  GetCurrentObject : string;
  GetObjectsListsToBeDeclared : gset string
}.

(** ** The generator's mutable members and its monad *)

Record Generator := {
  errorOccurred : bool;
  maxCustomConditionsDepth : nat;
  maxConditionsListsSize : nat;
  eventsListNextUniqueId : nat;
  instructionUniqueIds : gset Z
}.

Definition setErrorOccurred (g : Generator) : Generator :=
  {| errorOccurred := true;
     maxCustomConditionsDepth := maxCustomConditionsDepth g;
     maxConditionsListsSize := maxConditionsListsSize g;
     eventsListNextUniqueId := eventsListNextUniqueId g;
     instructionUniqueIds := instructionUniqueIds g |}.

Definition setMaxConditionsListsSize (n : nat) (g : Generator) : Generator :=
  {| errorOccurred := errorOccurred g;
     maxCustomConditionsDepth := maxCustomConditionsDepth g;
     maxConditionsListsSize := n;
     eventsListNextUniqueId := eventsListNextUniqueId g;
     instructionUniqueIds := instructionUniqueIds g |}.

Definition setInstructionUniqueIds (ids : gset Z) (g : Generator) : Generator :=
  {| errorOccurred := errorOccurred g;
     maxCustomConditionsDepth := maxCustomConditionsDepth g;
     maxConditionsListsSize := maxConditionsListsSize g;
     eventsListNextUniqueId := eventsListNextUniqueId g;
     instructionUniqueIds := ids |}.

(** A member function: it reads and writes the generator and either returns
    or has no defined result ([None]). *)
Definition Gen (A : Type) : Type := Generator -> option (A * Generator).

Definition ret {A} (a : A) : Gen A := fun g => Some (a, g).

Definition bind {A B} (m : Gen A) (k : A -> Gen B) : Gen B :=
  fun g => match m g with
           | Some (a, g') => k a g'
           | None => None
           end.

Notation "'let*' x ':=' m 'in' k" := (bind m (fun x => k))
  (at level 10, x pattern, m at level 100, k at level 200, only parsing).

(** [v[i]] on a [std::vector]. *)
Definition element {A} (v : list A) (i : nat) : Gen A :=
  fun g => match v !! i with
           | Some x => Some (x, g)
           | None => None
           end.

(** Line 896. *)
Definition ReportError : Gen unit := fun g => Some (tt, setErrorOccurred g).

(** ** Call builders (lines 38-256) *)

(** The scan that opens each builder: the last parameter at or after
    [startFromArgument] whose declared type is [target], and the number of
    parameters when there is none. *)
Definition scanParameters (target : string)
    (parameters : list ParameterMetadata.t) (startFromArgument : nat) : nat :=
  foldl (fun index i =>
           match parameters !! i with
           | Some p =>
               if decide (ParameterMetadata.type p = target) then i else index
           | None => index
           end)
        (length parameters)
        (seq startFromArgument (length parameters - startFromArgument)).

(** One turn of an argument loop: a comma and a space unless the text is
    still empty, then the argument. *)
Definition addArgument (argumentsStr arg : string) : string :=
  (if empty argumentsStr then argumentsStr else argumentsStr +:+ ", ") +:+ arg.

(** The loop over the classic arguments: every argument from
    [startFromArgument] on, the operator and its value left out. *)
Definition classicArguments (arguments : list string)
    (startFromArgument operatorIndex : nat) : string :=
  foldl (fun argumentsStr i =>
           if decide (i <> operatorIndex /\ i <> operatorIndex + 1) then
             match arguments !! i with
             | Some a => addArgument argumentsStr a
             | None => argumentsStr
             end
           else argumentsStr)
        ""
        (seq startFromArgument (length arguments - startFromArgument)).

Definition GenerateRelationalOperatorCall
    (instrInfos : InstructionMetadata.t) (arguments : list string)
    (callStartString : string) (startFromArgument : nat) : Gen string :=
  let parameters := InstructionMetadata.parameters instrInfos in
  let relationalOperatorIndex :=
    scanParameters "relationalOperator" parameters startFromArgument in
  if decide (length parameters <= relationalOperatorIndex + 1) then
    let* _ := ReportError in ret ""
  else
    let* relationalOperator := element arguments relationalOperatorIndex in
    let relationalOperator :=
      if decide (2 < String.length relationalOperator)
      then substring 1 (String.length relationalOperator - 1 - 1)
             relationalOperator
      else relationalOperator in
    let* rhs := element arguments (relationalOperatorIndex + 1) in
    let argumentsStr :=
      classicArguments arguments startFromArgument relationalOperatorIndex in
    ret (callStartString +:+ "(" +:+ argumentsStr +:+ ") "
         +:+ relationalOperator +:+ " " +:+ rhs).

Definition GenerateOperatorCall
    (instrInfos : InstructionMetadata.t) (arguments : list string)
    (callStartString getterStartString : string) (startFromArgument : nat)
    : Gen string :=
  let parameters := InstructionMetadata.parameters instrInfos in
  let operatorIndex := scanParameters "operator" parameters startFromArgument in
  if decide (length parameters <= operatorIndex + 1) then
    let* _ := ReportError in ret ""
  else
    let* operatorStr := element arguments operatorIndex in
    let operatorStr :=
      if decide (2 < String.length operatorStr)
      then substring 1 (String.length operatorStr - 1 - 1) operatorStr
      else operatorStr in
    let* rhs := element arguments (operatorIndex + 1) in
    let getterArgumentsStr :=
      classicArguments arguments startFromArgument operatorIndex in
    let argumentsStr :=
      foldl (fun argumentsStr i =>
               let argumentsStr :=
                 if decide (i <> operatorIndex /\ i <> operatorIndex + 1) then
                   match arguments !! i with
                   | Some a => addArgument argumentsStr a
                   | None => argumentsStr
                   end
                 else argumentsStr in
               if decide (i = operatorIndex + 1) then
                 if decide (operatorStr <> "=") then
                   addArgument argumentsStr
                     (getterStartString +:+ "(" +:+ getterArgumentsStr +:+ ") "
                      +:+ operatorStr +:+ " (" +:+ rhs +:+ ")")
                 else addArgument argumentsStr rhs
               else argumentsStr)
            ""
            (seq startFromArgument (length arguments - startFromArgument)) in
    ret (callStartString +:+ "(" +:+ argumentsStr +:+ ")").

Definition GenerateCompoundOperatorCall
    (instrInfos : InstructionMetadata.t) (arguments : list string)
    (callStartString : string) (startFromArgument : nat) : Gen string :=
  let parameters := InstructionMetadata.parameters instrInfos in
  let operatorIndex := scanParameters "operator" parameters startFromArgument in
  if decide (length parameters <= operatorIndex + 1) then
    let* _ := ReportError in ret ""
  else
    let* operatorStr := element arguments operatorIndex in
    let operatorStr :=
      if decide (2 < String.length operatorStr)
      then substring 1 (String.length operatorStr - 1 - 1) operatorStr
      else operatorStr in
    let* rhs := element arguments (operatorIndex + 1) in
    let operatorStr :=
      if decide (operatorStr = "+") then "+="
      else if decide (operatorStr = "-") then "-="
      else if decide (operatorStr = "/") then "/="
      else if decide (operatorStr = "*") then "*="
      else operatorStr in
    let argumentsStr :=
      classicArguments arguments startFromArgument operatorIndex in
    ret (callStartString +:+ "(" +:+ argumentsStr +:+ ") " +:+ operatorStr
         +:+ " (" +:+ rhs +:+ ")").

Definition GenerateMutatorCall
    (instrInfos : InstructionMetadata.t) (arguments : list string)
    (callStartString : string) (startFromArgument : nat) : Gen string :=
  let parameters := InstructionMetadata.parameters instrInfos in
  let operatorIndex := scanParameters "operator" parameters startFromArgument in
  if decide (length parameters <= operatorIndex + 1) then
    let* _ := ReportError in ret ""
  else
    let* operatorStr := element arguments operatorIndex in
    let operatorStr :=
      if decide (2 < String.length operatorStr)
      then substring 1 (String.length operatorStr - 1 - 1) operatorStr
      else operatorStr in
    let mutators :=
      ExtraInformation.optionalMutators
        (InstructionMetadata.codeExtraInformation instrInfos) in
    match mutators !! operatorStr with
    | None => let* _ := ReportError in ret ""
    | Some mutator =>
        let* rhs := element arguments (operatorIndex + 1) in
        let argumentsStr :=
          classicArguments arguments startFromArgument operatorIndex in
        ret (callStartString +:+ "(" +:+ argumentsStr +:+ ")." +:+ mutator
             +:+ "(" +:+ rhs +:+ ")")
    end.

(** Lines 1155-1164. *)
Definition GenerateArgumentsList (arguments : list string) (startFrom : nat)
  : string :=
  foldl (fun argumentsStr i =>
           match arguments !! i with
           | Some a => addArgument argumentsStr a
           | None => argumentsStr
           end)
        ""
        (seq startFrom (length arguments - startFrom)).

(** ** Collaborators of the generator

    The generator is a base class: the platform-specific generators override
    its virtual member functions, and parameter types are classified by
    [ParameterMetadata].  None of these is defined in the sources at hand, so
    the embedding is written against this interface. *)

Class Collaborators := {
  (** [ParameterMetadata::IsExpression(kind, type)], [IsObject], [IsBehavior]. *)
  IsExpression : string -> string -> bool;
  IsObject : string -> bool;
  IsBehavior : string -> bool;
  (** [gd::ExpressionCodeGenerator::GenerateExpressionCode(generator, context,
      kind, expression, objectName)]. *)
  GenerateExpressionCode :
    EventsCodeGenerationContext -> string -> string -> string ->
    Gen (string * EventsCodeGenerationContext);
  (** Virtual members of [EventsCodeGenerator]. *)
  GenerateObject :
    string -> string -> EventsCodeGenerationContext ->
    Gen (string * EventsCodeGenerationContext);
  GenerateTrue : string;
  GenerateFalse : string;
  GenerateNegatedPredicat : string -> string;
  GenerateBooleanInitializationToFalse :
    string -> EventsCodeGenerationContext -> string;
  (** [ManObjListName] of [EventsCodeNameMangler.h]. *)
  ManObjListName : string -> string
}.

(** Modelled from the spec: a sample platform.  Its hooks are the ones the
    spec words: negation wraps the predicate in a logical not, the boolean
    literals are the true and false literals, a flag is declared and set to
    false, expression-like parameter types are the number, string and
    variable families and object references are the object family.  The
    expression collaborator and the object-list handle are left as the
    identity on the text they receive. *)
Definition samplePlatform : Collaborators := {|
  IsExpression kind t :=
    if decide (kind = "number")
    then bool_decide (t ∈ ["expression"; "camera"; "forceMultiplier"])
    else if decide (kind = "string")
    then bool_decide (t ∈ ["string"; "layer"; "color"; "file"; "joyaxis";
                            "stringWithSelector"; "sceneName"])
    else if decide (kind = "variable")
    then bool_decide (t ∈ ["objectvar"; "globalvar"; "scenevar"])
    else false;
  IsObject t :=
    bool_decide (t ∈ ["object"; "objectPtr"; "objectList";
                      "objectListWithoutPicking"]);
  IsBehavior t := bool_decide (t = "behavior");
  GenerateExpressionCode context kind expression objectName :=
    ret (expression, context);
  GenerateObject objectName t context := ret (objectName, context);
  GenerateTrue := "true";
  GenerateFalse := "false";
  GenerateNegatedPredicat predicat := "!(" +:+ predicat +:+ ")";
  GenerateBooleanInitializationToFalse boolName context :=
    "bool " +:+ boolName +:+ " = false;" +:+ LF;
  ManObjListName objectName := objectName
|}.

(** ** Parameters (lines 593-679) *)

Section ParameterCodes.
Context `{Collaborators}.

Definition GenerateGetBehaviorNameCode (behaviorName : string) : string :=
  ConvertToStringExplicit behaviorName.

(** The loop of lines 663-666 over the supplementary types. *)
Definition supplementaryText (metadataType : string)
    (supplementaryParametersTypes : list (string * string)) : string :=
  foldl (fun argOutput entry =>
           if decide (entry.1 = metadataType) then argOutput +:+ entry.2
           else argOutput)
        "" supplementaryParametersTypes.

(** The two warnings go to the standard output and leave no trace in the
    generator; they are not part of the embedding. *)
Definition GenerateParameterCodes (parameter : string)
    (metadata : ParameterMetadata.t) (context : EventsCodeGenerationContext)
    (lastObjectName : string)
    (supplementaryParametersTypes : option (list (string * string)))
  : Gen (string * EventsCodeGenerationContext) :=
  let type := ParameterMetadata.type metadata in
  if IsExpression "number" type then
    GenerateExpressionCode context "number" parameter ""
  else if IsExpression "string" type then
    GenerateExpressionCode context "string" parameter ""
  else if IsExpression "variable" type then
    GenerateExpressionCode context type parameter lastObjectName
  else if IsObject type then
    GenerateObject parameter type context
  else if decide (type = "relationalOperator") then
    let argOutput := if decide (parameter = "=") then "==" else parameter in
    let argOutput :=
      if decide (argOutput <> "==" /\ argOutput <> "<" /\ argOutput <> ">"
                 /\ argOutput <> "<=" /\ argOutput <> ">="
                 /\ argOutput <> "!=")
      then "==" else argOutput in
    ret (DQ +:+ argOutput +:+ DQ, context)
  else if decide (type = "operator") then
    let argOutput := parameter in
    let argOutput :=
      if decide (argOutput <> "=" /\ argOutput <> "+" /\ argOutput <> "-"
                 /\ argOutput <> "/" /\ argOutput <> "*")
      then "=" else argOutput in
    ret (DQ +:+ argOutput +:+ DQ, context)
  else if IsBehavior type then
    ret (GenerateGetBehaviorNameCode parameter, context)
  else if decide (type = "key") then
    ret (DQ +:+ ConvertToString parameter +:+ DQ, context)
  else if decide (type = "audioResource" \/ type = "bitmapFontResource"
                  \/ type = "fontResource" \/ type = "imageResource"
                  \/ type = "jsonResource" \/ type = "videoResource"
                  \/ type = "password" \/ type = "musicfile"
                  \/ type = "soundfile" \/ type = "police") then
    ret (DQ +:+ ConvertToString parameter +:+ DQ, context)
  else if decide (type = "mouse") then
    ret (DQ +:+ ConvertToString parameter +:+ DQ, context)
  else if decide (type = "yesorno") then
    ret (if decide (parameter = "yes" \/ parameter = "oui")
         then GenerateTrue else GenerateFalse, context)
  else if decide (type = "trueorfalse") then
    ret (if decide (parameter = "True" \/ parameter = "Vrai")
         then GenerateTrue else GenerateFalse, context)
  else if decide (type = "inlineCode") then
    ret (ParameterMetadata.supplementaryInformation metadata, context)
  else
    let argOutput :=
      match supplementaryParametersTypes with
      | Some types => supplementaryText type types
      | None => ""
      end in
    let argOutput :=
      if empty argOutput
      then argOutput +:+ DQ +:+ ConvertToString parameter +:+ DQ
      else argOutput in
    ret (argOutput, context).

End ParameterCodes.

(** The spec's reading of the two operator kinds, to compare with the code:
    surrounding quote characters are stripped if present, [=] becomes [==]
    for relational operators, a token outside the valid set becomes the
    default, and the result is wrapped as a string literal. *)
Definition stripSurroundingQuotes (token : string) : string :=
  match token with
  | String c rest =>
      if decide (c = dquote /\ 1 <= String.length rest
                 /\ substring (String.length rest - 1) 1 rest = DQ)
      then substring 0 (String.length rest - 1) rest
      else token
  | EmptyString => token
  end.

Definition relationalOperators : list string :=
  ["=="; "<"; ">"; "<="; ">="; "!="].

Definition operators : list string := ["="; "+"; "-"; "/"; "*"].

Definition specRelationalOperator (token : string) : string :=
  let token := stripSurroundingQuotes token in
  let token := if decide (token = "=") then "==" else token in
  DQ +:+ (if decide (token ∈ relationalOperators) then token else "==") +:+ DQ.

Definition specOperator (token : string) : string :=
  let token := stripSurroundingQuotes token in
  DQ +:+ (if decide (token ∈ operators) then token else "=") +:+ DQ.

(** ** Conditions and actions (lines 924-1046) *)

Section Instructions.
Context `{Collaborators}.

(** Lines 1150-1153. *)
Definition GetObjectListName (name : string)
    (context : EventsCodeGenerationContext) : string :=
  ManObjListName name.

(** The loop of lines 944-950. *)
Definition conditionAlreadyTakeCareOfInversion
    (instrInfos : InstructionMetadata.t) : bool :=
  foldl (fun found p =>
           if decide (ParameterMetadata.type p = "conditionInverted")
           then true else found)
        false (InstructionMetadata.parameters instrInfos).

Definition isNumberOrString (instrInfos : InstructionMetadata.t) : bool :=
  let type :=
    ExtraInformation.type (InstructionMetadata.codeExtraInformation instrInfos)
  in bool_decide (type = "number" \/ type = "string").

Definition functionCallName (instrInfos : InstructionMetadata.t) : string :=
  ExtraInformation.functionCallName
    (InstructionMetadata.codeExtraInformation instrInfos).

(** The relational builder is called without a start index here; the
    declaration gives it the default, the first argument. *)
Definition GenerateFreeCondition (arguments : list string)
    (instrInfos : InstructionMetadata.t) (returnBoolean : string)
    (conditionInverted : bool) (context : EventsCodeGenerationContext)
  : Gen string :=
  let* predicat :=
    if isNumberOrString instrInfos then
      GenerateRelationalOperatorCall instrInfos arguments
        (functionCallName instrInfos) 0
    else
      ret (functionCallName instrInfos +:+ "("
           +:+ GenerateArgumentsList arguments 0 +:+ ")") in
  let predicat :=
    if negb (conditionAlreadyTakeCareOfInversion instrInfos)
       && conditionInverted
    then GenerateNegatedPredicat predicat else predicat in
  ret (returnBoolean +:+ " = " +:+ predicat +:+ ";" +:+ LF).

Definition GenerateObjectCondition (objectName : string)
    (objInfo : ObjectMetadata) (arguments : list string)
    (instrInfos : InstructionMetadata.t) (returnBoolean : string)
    (conditionInverted : bool) (context : EventsCodeGenerationContext)
  : Gen string :=
  let* parameter0 := element (InstructionMetadata.parameters instrInfos) 0 in
  let objectFunctionCallNamePart :=
    if negb (empty (ParameterMetadata.supplementaryInformation parameter0))
    then "static_cast<" +:+ className objInfo +:+ "*>("
         +:+ GetObjectListName objectName context +:+ "[i])->"
         +:+ functionCallName instrInfos
    else GetObjectListName objectName context +:+ "[i]->"
         +:+ functionCallName instrInfos in
  let* predicat :=
    if isNumberOrString instrInfos then
      GenerateRelationalOperatorCall instrInfos arguments
        objectFunctionCallNamePart 1
    else
      ret (objectFunctionCallNamePart +:+ "("
           +:+ GenerateArgumentsList arguments 1 +:+ ")") in
  let predicat :=
    if conditionInverted then GenerateNegatedPredicat predicat else predicat in
  ret ("For each picked object " +:+ DQ +:+ objectName +:+ DQ +:+ ", check "
       +:+ predicat +:+ "." +:+ LF).

Definition GenerateBehaviorCondition (objectName behaviorName : string)
    (autoInfo : BehaviorMetadata) (arguments : list string)
    (instrInfos : InstructionMetadata.t) (returnBoolean : string)
    (conditionInverted : bool) (context : EventsCodeGenerationContext)
  : Gen string :=
  let* predicat :=
    if isNumberOrString instrInfos then
      GenerateRelationalOperatorCall instrInfos arguments "" 2
    else
      ret ("(" +:+ GenerateArgumentsList arguments 2 +:+ ")") in
  let predicat :=
    if conditionInverted then GenerateNegatedPredicat predicat else predicat in
  ret ("For each picked object " +:+ DQ +:+ objectName +:+ DQ +:+ ", check "
       +:+ predicat +:+ " for behavior " +:+ DQ +:+ behaviorName +:+ DQ
       +:+ "." +:+ LF).

(** The call builders and the argument list are called without a start
    index here: the declaration's default, the first argument. *)
Definition GenerateFreeAction (arguments : list string)
    (instrInfos : InstructionMetadata.t)
    (context : EventsCodeGenerationContext) : Gen string :=
  let info := InstructionMetadata.codeExtraInformation instrInfos in
  let* call :=
    if isNumberOrString instrInfos then
      match ExtraInformation.accessType info with
      | ExtraInformation.MutatorAndOrAccessor =>
          GenerateOperatorCall instrInfos arguments
            (functionCallName instrInfos)
            (ExtraInformation.optionalAssociatedInstruction info) 0
      | ExtraInformation.Mutators =>
          GenerateMutatorCall instrInfos arguments
            (functionCallName instrInfos) 0
      | _ =>
          GenerateCompoundOperatorCall instrInfos arguments
            (functionCallName instrInfos) 0
      end
    else
      ret (functionCallName instrInfos +:+ "("
           +:+ GenerateArgumentsList arguments 0 +:+ ")") in
  ret (call +:+ ";" +:+ LF).

End Instructions.

(** ** Object and group registries ([ObjectsContainer.h]) *)

(** Modelled from the spec: [gd::Object] and [gd::ObjectGroup] are declared
    outside the sources at hand.  An object has a name and a type; a group
    has a name and the ordered names of its members. *)
Record Object := { GetName : string; GetObjectType : string }.

Record ObjectGroup := {
  GetGroupName : string;
  GetAllObjectsNames : list string
}.

(** Modelled from the spec: [gd::ObjectGroupsContainer]
    ([ObjectGroupsContainer.h], not among the sources at hand) is a
    name-keyed registry of groups, kept in order; [Has] tells whether a group
    of that name is registered and [Get] returns the first such group. *)
Module ObjectGroupsContainer.

Definition t : Type := list ObjectGroup.

Definition Has (groups : t) (name : string) : bool :=
  bool_decide (name ∈ GetGroupName <$> groups).

Definition Get (groups : t) (name : string) : option ObjectGroup :=
  List.find (fun group => bool_decide (GetGroupName group = name)) groups.

End ObjectGroupsContainer.

Module ObjectsContainer.

Record t := Build {
  initialObjects : list Object;
  objectGroups : ObjectGroupsContainer.t
}.

Definition GetObjectGroups (container : t) : ObjectGroupsContainer.t :=
  objectGroups container.

(** The header documents it: it returns true if an object called [name]
    exists. *)
Definition HasObjectNamed (container : t) (name : string) : bool :=
  bool_decide (name ∈ GetName <$> initialObjects container).

End ObjectsContainer.

(** ** Expansion of object and group names (lines 835-868) *)

Section Expansion.

(** The two registries the generator is built with: the project's and the
    layout's. *)
Variable globalObjectsAndGroups : ObjectsContainer.t.
Variable objectsAndGroups : ObjectsContainer.t.

Definition membersOf (groups : ObjectGroupsContainer.t) (name : string)
  : list string :=
  match ObjectGroupsContainer.Get groups name with
  | Some group => GetAllObjectsNames group
  | None => []
  end.

Definition ExpandObjectsName (objectName : string)
    (context : EventsCodeGenerationContext) : list string :=
  let realObjects :=
    if ObjectGroupsContainer.Has
         (ObjectsContainer.GetObjectGroups globalObjectsAndGroups) objectName
    then membersOf (ObjectsContainer.GetObjectGroups globalObjectsAndGroups)
           objectName
    else if ObjectGroupsContainer.Has
              (ObjectsContainer.GetObjectGroups objectsAndGroups) objectName
    then membersOf (ObjectsContainer.GetObjectGroups objectsAndGroups)
           objectName
    else [objectName] in
  let realObjects :=
    if decide (GetCurrentObject context ∈ realObjects)
    then [GetCurrentObject context]
    else realObjects in
  List.filter
    (fun object =>
       negb (negb (ObjectsContainer.HasObjectNamed objectsAndGroups object)
             && negb (ObjectsContainer.HasObjectNamed globalObjectsAndGroups
                        object)))
    realObjects.

End Expansion.

(** ** Unique identifiers (lines 1122-1148) *)

(** [size_t] has 64 bits; [uniqueId++] wraps. *)
Definition increment (uniqueId : Z) : Z := ((uniqueId + 1) mod 2 ^ 64)%Z.

(** The [while] loop of lines 1143-1145, run for at most [fuel] tests. *)
Fixpoint firstUnusedId (fuel : nat) (instructionUniqueIds : gset Z)
    (uniqueId : Z) : option Z :=
  match fuel with
  | O => None
  | S fuel =>
      if decide (uniqueId ∈ instructionUniqueIds)
      then firstUnusedId fuel instructionUniqueIds (increment uniqueId)
      else Some uniqueId
  end.

(** [instruction] is the address the pointer holds, [0] for a null pointer
    (which only adds a message on the standard output). *)
Definition GenerateSingleUsageUniqueIdFor (fuel : nat) (instruction : Z)
  : Gen Z :=
  fun g =>
    match firstUnusedId fuel (instructionUniqueIds g) instruction with
    | Some uniqueId =>
        Some (uniqueId,
              setInstructionUniqueIds ({[uniqueId]} ∪ instructionUniqueIds g) g)
    | None => None
    end.

(** One generation run asks for identifiers one instruction after the
    other. *)
Fixpoint uniqueIdsFor (fuel : nat) (instructions : list Z) : Gen (list Z) :=
  match instructions with
  | [] => ret []
  | instruction :: rest =>
      let* uniqueId := GenerateSingleUsageUniqueIdFor fuel instruction in
      let* others := uniqueIdsFor fuel rest in
      ret (uniqueId :: others)
  end.

(** ** Lists of conditions (lines 407-447) *)

Section ConditionsList.
Context `{Collaborators}.

(** [GenerateConditionCode] (lines 258-401) is taken as a whole: it returns
    the code of one condition and may change the condition it is given, the
    context and the generator. *)
Variable GenerateConditionCode :
  Instruction -> string -> EventsCodeGenerationContext -> Generator ->
  string * Instruction * EventsCodeGenerationContext * Generator.

Definition conditionIsTrue (i : nat) : string :=
  "condition" +:+ From i +:+ "IsTrue".

(** The inner loop of lines 421-431. *)
Definition skipGuard (cId : nat) (outputCode : string) : string :=
  foldl (fun outputCode i =>
           let outputCode :=
             outputCode +:+ (if decide (i = 0) then "if ( " else " && ") in
           let outputCode := outputCode +:+ conditionIsTrue i in
           if decide (i = cId - 1) then outputCode +:+ ") " else outputCode)
        outputCode (seq 0 cId).

(** The loop of lines 415-442, from condition [cId] on. *)
Fixpoint conditionsLoop (cId : nat) (conditions : list Instruction)
    (outputCode : string) (context : EventsCodeGenerationContext)
    (g : Generator)
  : string * list Instruction * EventsCodeGenerationContext * Generator :=
  match conditions with
  | [] => (outputCode, [], context, g)
  | condition :: rest =>
      let '(conditionCode, condition, context, g) :=
        GenerateConditionCode condition (conditionIsTrue cId) context g in
      let outputCode :=
        if negb (empty (GetType condition)) then
          skipGuard cId outputCode +:+ "{" +:+ LF +:+ conditionCode +:+ "}"
        else outputCode +:+ "/* Skipped condition (empty type) */" in
      let '(outputCode, rest, context, g) :=
        conditionsLoop (S cId) rest outputCode context g in
      (outputCode, condition :: rest, context, g)
  end.

Definition GenerateConditionsListCode (conditions : list Instruction)
    (context : EventsCodeGenerationContext) (g : Generator)
  : string * list Instruction * EventsCodeGenerationContext * Generator :=
  let outputCode :=
    foldl (fun outputCode i =>
             outputCode
             +:+ GenerateBooleanInitializationToFalse (conditionIsTrue i)
                   context)
          "" (seq 0 (length conditions)) in
  let '(outputCode, conditions', context, g) :=
    conditionsLoop 0 conditions outputCode context g in
  (outputCode, conditions', context,
   setMaxConditionsListsSize
     (Nat.max (maxConditionsListsSize g) (length conditions)) g).

(** What the loop hands to each condition, one call after the other: the
    code and the condition as [GenerateConditionCode] leaves them. *)
Fixpoint conditionCodes (cId : nat) (conditions : list Instruction)
    (context : EventsCodeGenerationContext) (g : Generator)
  : list (string * Instruction) :=
  match conditions with
  | [] => []
  | condition :: rest =>
      let '(conditionCode, condition, context, g) :=
        GenerateConditionCode condition (conditionIsTrue cId) context g in
      (conditionCode, condition) :: conditionCodes (S cId) rest context g
  end.

(** The guard in front of condition [i]: nothing for the first condition,
    else one [if] over the conjunction of the flags of all earlier
    conditions. *)
Definition guardOf (i : nat) : string :=
  if decide (i = 0) then ""
  else "if ( " +:+ String.concat " && " (conditionIsTrue <$> seq 0 i) +:+ ") ".

Definition guardedCondition (i : nat) (generated : string * Instruction)
  : string :=
  if negb (empty (GetType generated.2))
  then guardOf i +:+ "{" +:+ LF +:+ generated.1 +:+ "}"
  else "/* Skipped condition (empty type) */".

Fixpoint concatStrings (l : list string) : string :=
  match l with
  | [] => ""
  | s :: l => s +:+ concatStrings l
  end.

End ConditionsList.

(** ** Vocabulary of the statements *)

(** The arguments a call keeps: those from [startFromArgument] on that sit
    neither at the operator position nor at the value position after it. *)
Definition remainingArguments (arguments : list string)
    (startFromArgument operatorIndex : nat) : list string :=
  omap (fun i =>
          if decide (i <> operatorIndex /\ i <> operatorIndex + 1)
          then arguments !! i else None)
       (seq startFromArgument (length arguments - startFromArgument)).

(** The arguments of a setter: the same, with [value] in the value
    position. *)
Definition setterArguments (arguments : list string)
    (startFromArgument operatorIndex : nat) (value : string) : list string :=
  omap (fun i =>
          if decide (i = operatorIndex) then None
          else if decide (i = operatorIndex + 1) then Some value
          else arguments !! i)
       (seq startFromArgument (length arguments - startFromArgument)).

(** Empty arguments in front of the first non-empty one get no separator. *)
Fixpoint skipEmpty (l : list string) : list string :=
  match l with
  | [] => []
  | a :: rest => if empty a then skipEmpty rest else l
  end.

(** How a builder reads the compiled operator argument: as it is when it has
    at most two characters, without its first and its last character
    otherwise. *)
Inductive OperatorRead : string -> string -> Prop :=
| read_verbatim (argument : string) :
    String.length argument <= 2 -> OperatorRead argument argument
| read_inner (first last : ascii) (inner : string) :
    1 <= String.length inner ->
    OperatorRead (String first (inner +:+ String last "")) inner.

(** The compound assignment written for an operator. *)
Definition compoundAssignments : list (string * string) :=
  [("+", "+="); ("-", "-="); ("*", "*="); ("/", "/=")].

Definition compoundOf (operatorStr : string) : string :=
  match List.find (fun entry => bool_decide (entry.1 = operatorStr))
          compoundAssignments with
  | Some entry => entry.2
  | None => operatorStr
  end.

(** A parameter type that is neither expression-like nor an object
    reference, so that the dispatch of [GenerateParameterCodes] reaches the
    tests on the type's name. *)
Definition plainParameterType `{Collaborators} (type : string) : Prop :=
  IsExpression "number" type = false /\ IsExpression "string" type = false
  /\ IsExpression "variable" type = false /\ IsObject type = false.

(** The metadata declares a parameter of type [conditionInverted]. *)
Definition declaresConditionInverted (instrInfos : InstructionMetadata.t)
  : bool :=
  bool_decide ("conditionInverted"
               ∈ ParameterMetadata.type <$> InstructionMetadata.parameters instrInfos).

(** A generator on which nothing has been recorded yet. *)
Definition freshGenerator : Generator :=
  {| errorOccurred := false;
     maxCustomConditionsDepth := 0;
     maxConditionsListsSize := 0;
     eventsListNextUniqueId := 0;
     instructionUniqueIds := ∅ |}.

Definition noCurrentObject : EventsCodeGenerationContext :=
  {| GetCurrentObject := ""; GetObjectsListsToBeDeclared := ∅ |}.

(** ** Sample data for the statements *)

Definition scanStep (target : string) (parameters : list ParameterMetadata.t)
    (index i : nat) : nat :=
  match parameters !! i with
  | Some p => if decide (ParameterMetadata.type p = target) then i else index
  | None => index
  end.

(** The text of lines 55-60 and of their three copies. *)
Definition readOperator (argument : string) : string :=
  if decide (2 < String.length argument)
  then substring 1 (String.length argument - 1 - 1) argument
  else argument.

Definition parameterOfType (type : string) : ParameterMetadata.t :=
  ParameterMetadata.Build type "".

(** A free action on a number, written with compound assignments: an
    operator and the value. *)
Definition setNumber : InstructionMetadata.t :=
  InstructionMetadata.Build
    [parameterOfType "operator"; parameterOfType "expression"]
    (ExtraInformation.Build "number" ExtraInformation.Reference "Set" "" ∅).

(** The same with a leading object parameter. *)
Definition setNumberOf : InstructionMetadata.t :=
  InstructionMetadata.Build
    [parameterOfType "object"; parameterOfType "operator";
     parameterOfType "expression"]
    (ExtraInformation.Build "number" ExtraInformation.Reference "Set" "" ∅).

(** An operator that is the last parameter: no value follows it. *)
Definition operatorOnly : InstructionMetadata.t :=
  InstructionMetadata.Build
    [parameterOfType "operator"]
    (ExtraInformation.Build "number" ExtraInformation.Reference "Set" "" ∅).

(** An action written with a table of mutators. *)
Definition scaleNumber : InstructionMetadata.t :=
  InstructionMetadata.Build
    [parameterOfType "operator"; parameterOfType "expression"]
    (ExtraInformation.Build "number" ExtraInformation.Mutators "Scale" ""
       {[ "+"%string := "add"%string ]}).

(** A comparison of a number. *)
Definition compareNumber : InstructionMetadata.t :=
  InstructionMetadata.Build
    [parameterOfType "relationalOperator"; parameterOfType "expression"]
    (ExtraInformation.Build "number" ExtraInformation.Reference "Get" "" ∅).

Definition movingCondition : InstructionMetadata.t :=
  InstructionMetadata.Build
    [parameterOfType "object"; parameterOfType "behavior";
     parameterOfType "conditionInverted"]
    (ExtraInformation.Build "" ExtraInformation.Reference "IsMoving" "" ∅).

Definition visibleCondition : InstructionMetadata.t :=
  InstructionMetadata.Build
    [parameterOfType "object"; parameterOfType "conditionInverted"]
    (ExtraInformation.Build "" ExtraInformation.Reference "IsVisible" "" ∅).

(** An object of that name is registered in the layout or in the project. *)
Definition objectExists (globalObjectsAndGroups objectsAndGroups : ObjectsContainer.t)
    (object : string) : bool :=
  ObjectsContainer.HasObjectNamed objectsAndGroups object
  || ObjectsContainer.HasObjectNamed globalObjectsAndGroups object.

Definition sprite (name : string) : Object :=
  {| GetName := name; GetObjectType := "Sprite" |}.

(** A project and a layout that both define a group called Enemies. *)
Definition projectWithEnemies : ObjectsContainer.t :=
  ObjectsContainer.Build
    [sprite "Zombie"; sprite "Ghost"]
    [{| GetGroupName := "Enemies"; GetAllObjectsNames := ["Zombie"%string] |}].

Definition layoutWithEnemies : ObjectsContainer.t :=
  ObjectsContainer.Build
    []
    [{| GetGroupName := "Enemies"; GetAllObjectsNames := ["Ghost"%string] |}].

(** A project whose group lists objects that are registered nowhere. *)
Definition projectWithStaleGroup : ObjectsContainer.t :=
  ObjectsContainer.Build
    []
    [{| GetGroupName := "Enemies";
        GetAllObjectsNames := ["Zombie"; "Ghost"]%string |}].

Definition emptyLayout : ObjectsContainer.t := ObjectsContainer.Build [] [].

Definition iterating (object : string) : EventsCodeGenerationContext :=
  {| GetCurrentObject := object; GetObjectsListsToBeDeclared := ∅ |}.

(** A generator that has handed out the identifier 4096 already. *)
Definition afterOneInstruction : Generator :=
  setInstructionUniqueIds {[ 4096%Z ]} freshGenerator.

(** A stand-in for the code of one condition: a call of the function named
    by the condition's type, stored in the flag; the condition, the context
    and the generator stay as they are. *)
Definition sampleConditionCode (condition : Instruction)
    (returnBoolean : string) (context : EventsCodeGenerationContext)
    (g : Generator)
  : string * Instruction * EventsCodeGenerationContext * Generator :=
  (returnBoolean +:+ " = " +:+ GetType condition +:+ "();" +:+ LF,
   condition, context, g).

Definition conditionOfType (type : string) : Instruction :=
  MakeInstruction type false [] [].

(** ** Further functions of the generator *)

(** Lines 1048-1083.  The builders start at the third argument here. *)
Definition GenerateObjectAction (objectName : string)
    (objInfo : ObjectMetadata) (arguments : list string)
    (instrInfos : InstructionMetadata.t)
    (context : EventsCodeGenerationContext) : Gen string :=
  let info := InstructionMetadata.codeExtraInformation instrInfos in
  if isNumberOrString instrInfos then
    let* call :=
      match ExtraInformation.accessType info with
      | ExtraInformation.MutatorAndOrAccessor =>
          GenerateOperatorCall instrInfos arguments
            (functionCallName instrInfos)
            (ExtraInformation.optionalAssociatedInstruction info) 2
      | _ =>
          GenerateCompoundOperatorCall instrInfos arguments
            (functionCallName instrInfos) 2
      end in
    ret ("For each picked object " +:+ DQ +:+ objectName +:+ DQ +:+ ", call "
         +:+ call +:+ "." +:+ LF)
  else
    let argumentsStr := GenerateArgumentsList arguments 1 in
    let call := functionCallName instrInfos +:+ "(" +:+ argumentsStr +:+ ")" in
    ret ("For each picked object " +:+ DQ +:+ objectName +:+ DQ +:+ ", call "
         +:+ call +:+ "(" +:+ argumentsStr +:+ ")." +:+ LF).

(** Lines 1085-1120. *)
Definition GenerateBehaviorAction (objectName behaviorName : string)
    (autoInfo : BehaviorMetadata) (arguments : list string)
    (instrInfos : InstructionMetadata.t)
    (context : EventsCodeGenerationContext) : Gen string :=
  let info := InstructionMetadata.codeExtraInformation instrInfos in
  if isNumberOrString instrInfos then
    let* call :=
      match ExtraInformation.accessType info with
      | ExtraInformation.MutatorAndOrAccessor =>
          GenerateOperatorCall instrInfos arguments
            (functionCallName instrInfos)
            (ExtraInformation.optionalAssociatedInstruction info) 2
      | _ =>
          GenerateCompoundOperatorCall instrInfos arguments
            (functionCallName instrInfos) 2
      end in
    ret ("For each picked object " +:+ DQ +:+ objectName +:+ DQ +:+ ", call "
         +:+ call +:+ " for behavior " +:+ DQ +:+ behaviorName +:+ DQ
         +:+ "." +:+ LF)
  else
    let argumentsStr := GenerateArgumentsList arguments 2 in
    let call := functionCallName instrInfos +:+ "(" +:+ argumentsStr +:+ ")" in
    ret ("For each picked object " +:+ DQ +:+ objectName +:+ DQ +:+ ", call "
         +:+ call +:+ "(" +:+ argumentsStr +:+ ")" +:+ " for behavior "
         +:+ DQ +:+ behaviorName +:+ DQ +:+ "." +:+ LF).

(** Lines 1122-1124: [return eventsListNextUniqueId++;] on a [size_t]. *)
Definition setEventsListNextUniqueId (n : nat) (g : Generator) : Generator :=
  {| errorOccurred := errorOccurred g;
     maxCustomConditionsDepth := maxCustomConditionsDepth g;
     maxConditionsListsSize := maxConditionsListsSize g;
     eventsListNextUniqueId := n;
     instructionUniqueIds := instructionUniqueIds g |}.

Definition GenerateSingleUsageUniqueIdForEventsList : Gen nat :=
  fun g =>
    Some (eventsListNextUniqueId g,
          setEventsListNextUniqueId
            (Z.to_nat ((Z.of_nat (eventsListNextUniqueId g) + 1) mod 2 ^ 64)%Z)
            g).

(** A run asks for the identifiers of its event lists one after the
    other. *)
Fixpoint eventsListIds (calls : nat) : Gen (list nat) :=
  match calls with
  | O => ret []
  | S calls =>
      let* uniqueId := GenerateSingleUsageUniqueIdForEventsList in
      let* others := eventsListIds calls in
      ret (uniqueId :: others)
  end.

(** Modelled from the spec: an event ([Event.h], not among the sources at
    hand) is a node of the tree; of it [DeleteUselessEvents] asks whether it
    is executable, whether it is disabled, whether it can have sub events,
    and for its sub events. *)
#[warnings="-register-all"]
Inductive BaseEvent := MakeEvent {
  IsExecutable : bool;
  IsDisabled : bool;
  CanHaveSubEvents : bool;
  GetSubEvents : list BaseEvent
}.

Definition setSubEvents (subEvents : list BaseEvent) (event : BaseEvent)
  : BaseEvent :=
  MakeEvent (IsExecutable event) (IsDisabled event) (CanHaveSubEvents event)
    subEvents.

(** Lines 870-879.  The index runs from the last event down to the first
    (on an empty list [size() - 1] wraps and the loop is not entered); the
    sub events are cleaned in place, then the event is removed when it is
    not executable or is disabled.  [fuel] bounds the nesting. *)
Fixpoint DeleteUselessEvents (fuel : nat) (events : list BaseEvent)
  : option (list BaseEvent) :=
  match fuel with
  | O => None
  | S fuel =>
      foldl (fun state eId =>
               match state with
               | None => None
               | Some events =>
                   match events !! eId with
                   | None => None
                   | Some event =>
                       match
                         (if CanHaveSubEvents event
                          then option_map (fun subEvents =>
                                             setSubEvents subEvents event)
                                 (DeleteUselessEvents fuel
                                    (GetSubEvents event))
                          else Some event)
                       with
                       | None => None
                       | Some event =>
                           let events := <[eId := event]> events in
                           if negb (IsExecutable event) || IsDisabled event
                           then Some (delete eId events)
                           else Some events
                       end
                   end
               end)
            (Some events) (rev (seq 0 (length events)))
  end.

(** ** Lists of actions (lines 572-591) *)

Section ActionsList.

(** [GenerateActionCode] (lines 452-567) is taken as a whole: it returns the
    code of one action and may change the action it is given, the context
    and the generator. *)
Variable GenerateActionCode :
  Instruction -> EventsCodeGenerationContext -> Generator ->
  string * Instruction * EventsCodeGenerationContext * Generator.

(** The loop of lines 575-588, with the text written so far. *)
Fixpoint actionsLoop (actions : list Instruction) (outputCode : string)
    (context : EventsCodeGenerationContext) (g : Generator)
  : string * list Instruction * EventsCodeGenerationContext * Generator :=
  match actions with
  | [] => (outputCode, [], context, g)
  | action :: rest =>
      let '(actionCode, action, context, g) :=
        GenerateActionCode action context g in
      let outputCode := outputCode +:+ "{" in
      let outputCode :=
        if empty (GetType action)
        then outputCode +:+ "/* Skipped action (empty type) */"
        else outputCode +:+ actionCode in
      let outputCode := outputCode +:+ "}" in
      let '(outputCode, rest, context, g) :=
        actionsLoop rest outputCode context g in
      (outputCode, action :: rest, context, g)
  end.

Definition GenerateActionsListCode (actions : list Instruction)
    (context : EventsCodeGenerationContext) (g : Generator)
  : string * list Instruction * EventsCodeGenerationContext * Generator :=
  actionsLoop actions "" context g.

(** What the loop gets for each action, one call after the other: the code
    and the action as [GenerateActionCode] leaves them. *)
Fixpoint actionCodes (actions : list Instruction)
    (context : EventsCodeGenerationContext) (g : Generator)
  : list (string * Instruction) :=
  match actions with
  | [] => []
  | action :: rest =>
      let '(actionCode, action, context, g) :=
        GenerateActionCode action context g in
      (actionCode, action) :: actionCodes rest context g
  end.

(** The block of one action. *)
Definition bracedAction (generated : string * Instruction) : string :=
  "{" +:+ (if empty (GetType generated.2)
           then "/* Skipped action (empty type) */"
           else generated.1)
  +:+ "}".

End ActionsList.

(** ** Vocabulary of the further statements *)

(** What the target language reads in a literal: a backslash and the
    character after it stand for one character. *)
Definition unescapeChar (c : ascii) : ascii :=
  if decide (c = "r"%char) then cr
  else if decide (c = "n"%char) then lf
  else c.

Fixpoint unescape (s : string) : string :=
  match s with
  | EmptyString => EmptyString
  | String c rest =>
      if decide (c = backslash) then
        match rest with
        | EmptyString => String c EmptyString
        | String d rest' => String (unescapeChar d) (unescape rest')
        end
      else String c (unescape rest)
  end.

(** The characters the escaping rewrites, and how many of them a text
    holds. *)
Definition isSpecial (c : ascii) : bool :=
  bool_decide (c = backslash) || bool_decide (c = cr)
  || bool_decide (c = lf) || bool_decide (c = dquote).

Fixpoint specials (s : string) : nat :=
  match s with
  | EmptyString => 0
  | String c rest => (if isSpecial c then 1 else 0) + specials rest
  end.

(** The parameter types written as an escaped string literal of the raw
    token. *)
Definition literalParameterTypes : list string :=
  ["key"; "audioResource"; "bitmapFontResource"; "fontResource";
   "imageResource"; "jsonResource"; "videoResource"; "password"; "musicfile";
   "soundfile"; "police"; "mouse"].

(** The compound assignments a call can be written with. *)
Definition compoundOperators : list string := ["="; "+="; "-="; "/="; "*="].

(** An event the loop keeps. *)
Definition isUseful (event : BaseEvent) : bool :=
  IsExecutable event && negb (IsDisabled event).

(** The tree the loop leaves: at every level reached through events that can
    have sub events, the events that are executable and not disabled, in
    their order. *)
Fixpoint cleanEvent (event : BaseEvent) : BaseEvent :=
  match event with
  | MakeEvent executable disabled canHaveSubEvents subEvents =>
      MakeEvent executable disabled canHaveSubEvents
        (if canHaveSubEvents
         then List.filter isUseful (List.map cleanEvent subEvents)
         else subEvents)
  end.

Definition cleanEvents (events : list BaseEvent) : list BaseEvent :=
  List.filter isUseful (List.map cleanEvent events).

(** Every event is useful, and so are the sub events of those that can have
    some, all the way down. *)
Fixpoint allUseful (event : BaseEvent) : bool :=
  match event with
  | MakeEvent executable disabled canHaveSubEvents subEvents =>
      executable && negb disabled
      && (if canHaveSubEvents then forallb allUseful subEvents else true)
  end.

(** The nesting of a tree of events. *)
Fixpoint nesting (event : BaseEvent) : nat :=
  match event with
  | MakeEvent _ _ _ subEvents =>
      S (foldr (fun sub deepest => Nat.max (nesting sub) deepest) 0 subEvents)
  end.

Definition nestingOf (events : list BaseEvent) : nat :=
  foldr (fun event deepest => Nat.max (nesting event) deepest) 0 events.

(** The two outcomes of a builder: nothing written and the error reported,
    or a text written and the generator untouched. *)
Definition builderOutcome (g : Generator) (result : option (string * Generator)) : Prop :=
  forall text g',
    result = Some (text, g') ->
    (text = ""%string /\ g' = setErrorOccurred g)
    \/ (text <> ""%string /\ g' = g).

(** The parameter types the dispatch of [GenerateParameterCodes] names. *)
Definition namedParameterTypes : list string :=
  ["relationalOperator"; "operator"] ++ literalParameterTypes
  ++ ["yesorno"; "trueorfalse"; "inlineCode"].

(** The texts a supplementary table holds for a type, in the table's
    order. *)
Definition matchingTexts (type : string) (types : list (string * string))
  : list string :=
  snd <$> filter (fun entry => entry.1 = type) types.

(** No value follows the operator the scan finds from [start]: the test of
    lines 98, 167 and 218. *)
Definition valueMissing (instrInfos : InstructionMetadata.t) (start : nat)
  : Prop :=
  length (InstructionMetadata.parameters instrInfos)
  <= scanParameters "operator" (InstructionMetadata.parameters instrInfos)
       start + 1.

(** The operator read at the position the scan finds is no key of the table
    of mutators. *)
Definition mutatorMissing (instrInfos : InstructionMetadata.t)
    (arguments : list string) (start : nat) : Prop :=
  exists argument,
    arguments !! scanParameters "operator"
                   (InstructionMetadata.parameters instrInfos) start
    = Some argument
    /\ ExtraInformation.optionalMutators
         (InstructionMetadata.codeExtraInformation instrInfos)
         !! readOperator argument
       = None.

(** When a free action, and when an action on an object or a behavior,
    finds nothing to write as its call. *)
Definition freeActionFails (instrInfos : InstructionMetadata.t)
    (arguments : list string) : Prop :=
  isNumberOrString instrInfos = true
  /\ (valueMissing instrInfos 0
      \/ (ExtraInformation.accessType
            (InstructionMetadata.codeExtraInformation instrInfos)
          = ExtraInformation.Mutators
          /\ mutatorMissing instrInfos arguments 0)).

Definition memberActionFails (instrInfos : InstructionMetadata.t) : Prop :=
  isNumberOrString instrInfos = true /\ valueMissing instrInfos 2.

(** An action on a number of an object, written with a getter and a setter:
    the object, a name, an operator and the value. *)
Definition setNumberNamed : InstructionMetadata.t :=
  InstructionMetadata.Build
    [parameterOfType "object"; parameterOfType "expression";
     parameterOfType "operator"; parameterOfType "expression"]
    (ExtraInformation.Build "number" ExtraInformation.MutatorAndOrAccessor
       "Set" "Get" ∅).


(** A project whose group has three members, two of them registered. *)
Definition projectWithHorde : ObjectsContainer.t :=
  ObjectsContainer.Build
    [sprite "Zombie"; sprite "Ghost"]
    [{| GetGroupName := "Enemies";
        GetAllObjectsNames := ["Zombie"; "Ghost"; "Bat"]%string |}].

(** Sample events: a standard event, a comment and a disabled event. *)
Definition standardEvent (subEvents : list BaseEvent) : BaseEvent :=
  MakeEvent true false true subEvents.

Definition commentEvent : BaseEvent := MakeEvent false false false [].

Definition disabledEvent (subEvents : list BaseEvent) : BaseEvent :=
  MakeEvent true true true subEvents.

Definition sampleEvents : list BaseEvent :=
  [commentEvent;
   standardEvent [commentEvent; standardEvent []];
   disabledEvent [standardEvent []];
   standardEvent []].

(** ** Proofs about strings *)

Section StringFacts.

Lemma append_nil_r (s : string) : s +:+ "" = s.
Proof. induction s as [|c s IH]; simpl; [done | by rewrite IH]. Qed.

Lemma append_assoc (a b c : string) : (a +:+ b) +:+ c = a +:+ (b +:+ c).
Proof. induction a as [|x a IH]; simpl; [done | by rewrite IH]. Qed.

Lemma FindAndReplace_app (x : ascii) (r a b : string) :
  FindAndReplace x r (a +:+ b) = FindAndReplace x r a +:+ FindAndReplace x r b.
Proof.
  induction a as [|c a IH]; simpl; [done |].
  case_decide; rewrite IH; [by rewrite append_assoc | done].
Qed.

Lemma ConvertToString_app (a b : string) :
  ConvertToString (a +:+ b) = ConvertToString a +:+ ConvertToString b.
Proof. unfold ConvertToString. by rewrite !FindAndReplace_app. Qed.

Lemma ConvertToString_char (c : ascii) :
  ConvertToString (String c "") = escapeChar c.
Proof.
  unfold ConvertToString, escapeChar.
  destruct (decide (c = backslash)) as [->|Hb]; [reflexivity |].
  destruct (decide (c = cr)) as [->|Hr]; [reflexivity |].
  destruct (decide (c = lf)) as [->|Hl]; [reflexivity |].
  destruct (decide (c = dquote)) as [->|Hq]; [reflexivity |].
  simpl. rewrite !decide_False by done. simpl.
  rewrite !decide_False by done. simpl.
  rewrite !decide_False by done. simpl.
  by rewrite !decide_False by done.
Qed.

Lemma ConvertToString_escapeAll (s : string) :
  ConvertToString s = escapeAll s.
Proof.
  induction s as [|c s IH]; [done |].
  change (String c s) with (String c "" +:+ s).
  rewrite ConvertToString_app, ConvertToString_char, IH. done.
Qed.

Lemma wellEscaped_escapeChar (c : ascii) (t : string) :
  wellEscaped (escapeChar c +:+ t) = wellEscaped t.
Proof.
  unfold escapeChar.
  destruct (decide (c = backslash)) as [->|Hb]; [reflexivity |].
  destruct (decide (c = cr)) as [->|Hr]; [reflexivity |].
  destruct (decide (c = lf)) as [->|Hl]; [reflexivity |].
  destruct (decide (c = dquote)) as [->|Hq]; [reflexivity |].
  simpl. by rewrite !decide_False by done.
Qed.

Lemma wellEscaped_escapeAll (s : string) : wellEscaped (escapeAll s) = true.
Proof.
  induction s as [|c s IH]; [done |]. simpl.
  by rewrite wellEscaped_escapeChar.
Qed.

End StringFacts.

(** C9. [ConvertToString] runs the four replacements in the order backslash,
    carriage return, line feed, double quote, so that every character is
    escaped once and on its own; the text a, backslash, b, double quote, c
    becomes a, two backslashes, b, backslash, double quote, c; and whatever
    the input, the output read from the left has no double quote outside an
    escape pair and no backslash that does not open one. *)
Theorem ConvertToString_escapes :
  (forall s,
      ConvertToString s
      = FindAndReplace dquote (BS +:+ DQ)
          (FindAndReplace lf (BS +:+ "n")
             (FindAndReplace cr (BS +:+ "r")
                (FindAndReplace backslash (BS +:+ BS) s))))
  /\ (forall s, ConvertToString s = escapeAll s)
  /\ ConvertToString ("a" +:+ BS +:+ "b" +:+ DQ +:+ "c")
     = "a" +:+ BS +:+ BS +:+ "b" +:+ BS +:+ DQ +:+ "c"
  /\ (forall s, wellEscaped (ConvertToString s) = true).
Proof.
  split; [done |]. split; [apply ConvertToString_escapeAll |].
  split; [reflexivity |].
  intros s. rewrite ConvertToString_escapeAll. apply wellEscaped_escapeAll.
Qed.

(** ** Argument lists *)

Section ArgumentLists.

Lemma foldl_selected (select : nat -> option string) (l : list nat)
    (argumentsStr : string) :
  foldl (fun argumentsStr i =>
           match select i with
           | Some a => addArgument argumentsStr a
           | None => argumentsStr
           end) argumentsStr l
  = foldl addArgument argumentsStr (omap select l).
Proof.
  revert argumentsStr. induction l as [|i l IH]; intros acc; [done |].
  simpl. destruct (select i); simpl; apply IH.
Qed.

Lemma classicArguments_remaining (arguments : list string) (start index : nat) :
  classicArguments arguments start index
  = foldl addArgument "" (remainingArguments arguments start index).
Proof.
  unfold classicArguments, remainingArguments.
  rewrite <- foldl_selected.
  generalize (seq start (length arguments - start)) ""%string.
  induction l as [|i l IH]; intros acc; [done |].
  simpl. rewrite IH. by case_decide.
Qed.

Lemma omap_lookup_seq (l prefix : list string) :
  omap (fun i => (prefix ++ l) !! i) (seq (length prefix) (length l)) = l.
Proof.
  revert prefix. induction l as [|a l IH]; intros prefix; [done |].
  simpl. rewrite list_lookup_middle by done. f_equal.
  specialize (IH (prefix ++ [a])).
  rewrite <- app_assoc, length_app in IH. simpl in IH.
  by replace (length prefix + 1) with (S (length prefix)) in IH by lia.
Qed.

Lemma GenerateArgumentsList_foldl (l : list string) :
  GenerateArgumentsList l 0 = foldl addArgument "" l.
Proof.
  unfold GenerateArgumentsList. rewrite foldl_selected, Nat.sub_0_r.
  f_equal. exact (omap_lookup_seq l []).
Qed.

Lemma foldl_addArgument_started (l : list string) (argumentsStr : string) :
  empty argumentsStr = false ->
  foldl addArgument argumentsStr l
  = argumentsStr +:+ concatStrings ((fun a => ", " +:+ a) <$> l).
Proof.
  revert argumentsStr. induction l as [|a l IH]; intros acc Hacc; simpl.
  - by rewrite append_nil_r.
  - unfold addArgument at 2. rewrite Hacc. rewrite IH.
    + by rewrite !append_assoc.
    + destruct acc; [done | reflexivity].
Qed.

Lemma concat_cons_separated (a : string) (l : list string) :
  String.concat ", " (a :: l)
  = a +:+ concatStrings ((fun a => ", " +:+ a) <$> l).
Proof.
  revert a. induction l as [|b l IH]; intros a; simpl.
  - by rewrite append_nil_r.
  - specialize (IH b). simpl in IH. by rewrite IH.
Qed.

Lemma foldl_addArgument_concat (l : list string) :
  foldl addArgument "" l = String.concat ", " (skipEmpty l).
Proof.
  induction l as [|a l IH]; [done |].
  simpl. destruct a as [|c a]; simpl; [apply IH |].
  rewrite foldl_addArgument_started by done.
  by rewrite <- concat_cons_separated.
Qed.

Lemma skipEmpty_id (l : list string) :
  Forall (fun a => a <> ""%string) l -> skipEmpty l = l.
Proof. destruct 1 as [|a l Ha _]; [done |]. simpl. by destruct a. Qed.


End ArgumentLists.

(** ** The scan for the operator parameter *)

Section Scan.

(** After the first [k] steps the index is the last match below
    [start + k], or still the parameter count. *)
Lemma scan_prefix (target : string) (parameters : list ParameterMetadata.t)
    (start k : nat) :
  start + k <= length parameters ->
  let r := foldl (scanStep target parameters) (length parameters)
             (seq start k) in
  (r = length parameters
   /\ forall i p, start <= i < start + k -> parameters !! i = Some p ->
                  ParameterMetadata.type p <> target)
  \/ (start <= r < start + k
      /\ (exists p, parameters !! r = Some p
                    /\ ParameterMetadata.type p = target)
      /\ forall i p, r < i < start + k -> parameters !! i = Some p ->
                     ParameterMetadata.type p <> target).
Proof.
  induction k as [|k IH]; intros Hk.
  - left. split; [done |]. intros; lia.
  - rewrite seq_S, foldl_app. simpl.
    specialize (IH ltac:(lia)). simpl in IH.
    remember (foldl (scanStep target parameters) (length parameters)
                (seq start k)) as r eqn:Er.
    clear Er. unfold scanStep.
    destruct (parameters !! (start + k)) as [p|] eqn:Hlookup;
      [|apply lookup_ge_None in Hlookup; lia].
    case_decide as Ht.
    { right. split; [lia |]. split; [by exists p |]. intros; lia. }
    destruct IH as [[Hr Hnone]|(Hr & Hp & Hlast)].
    + left. split; [done |]. intros i q Hi Hq.
      destruct (decide (i = start + k)) as [->|]; [congruence |].
      apply (Hnone i q); [lia | done].
    + right. split; [lia |]. split; [done |]. intros i q Hi Hq.
      destruct (decide (i = start + k)) as [->|]; [congruence |].
      apply (Hlast i q); [lia | done].
Qed.

Lemma scanParameters_spec (target : string)
    (parameters : list ParameterMetadata.t) (start : nat) :
  let r := scanParameters target parameters start in
  (r = length parameters
   /\ forall i p, start <= i -> parameters !! i = Some p ->
                  ParameterMetadata.type p <> target)
  \/ (start <= r < length parameters
      /\ (exists p, parameters !! r = Some p
                    /\ ParameterMetadata.type p = target)
      /\ forall i p, r < i -> parameters !! i = Some p ->
                     ParameterMetadata.type p <> target).
Proof.
  destruct (decide (start <= length parameters)) as [Hle|Hgt].
  - pose proof (scan_prefix target parameters start
                  (length parameters - start) ltac:(lia)) as Hscan.
    simpl in Hscan. unfold scanParameters; simpl.
    change (foldl _ (length parameters) ?l)
      with (foldl (scanStep target parameters) (length parameters) l).
    destruct Hscan as [[Hr Hnone]|(Hr & Hfound & Hlast)].
    + left. split; [done |]. intros i p Hi Hp. apply (Hnone i p); [|done].
      apply lookup_lt_Some in Hp. lia.
    + right. split; [lia |]. split; [done |]. intros i p Hi Hp.
      apply (Hlast i p); [|done]. apply lookup_lt_Some in Hp. lia.
  - left. unfold scanParameters; simpl.
    replace (length parameters - start) with 0 by lia. split; [done |].
    intros i p Hi Hp. apply lookup_lt_Some in Hp. lia.
Qed.

End Scan.

(** ** The operator argument *)

Section OperatorArgument.

Lemma length_append (a b : string) :
  String.length (a +:+ b) = String.length a + String.length b.
Proof. induction a as [|c a IH]; simpl; [done | by rewrite IH]. Qed.

Lemma substring_prefix (a b : string) :
  substring 0 (String.length a) (a +:+ b) = a.
Proof. induction a as [|c a IH]; simpl; [by destruct b | by rewrite IH]. Qed.

Lemma string_snoc (c : ascii) (s : string) :
  exists inner last, String c s = inner +:+ String last "".
Proof.
  revert c. induction s as [|d s IH]; intros c.
  - by exists ""%string, c.
  - destruct (IH d) as (inner & last & Heq).
    exists (String c inner), last. simpl. by rewrite Heq.
Qed.

Lemma OperatorRead_readOperator (argument : string) :
  OperatorRead argument (readOperator argument).
Proof.
  unfold readOperator. case_decide as Hlen; [|constructor; lia].
  destruct argument as [|first rest]; [simpl in Hlen; lia |].
  destruct rest as [|c rest]; [simpl in Hlen; lia |].
  destruct (string_snoc c rest) as (inner & last & Heq).
  rewrite Heq in *. simpl in Hlen. rewrite length_append in Hlen.
  simpl in Hlen.
  replace (String.length (String first (inner +:+ String last "")) - 1 - 1)
    with (String.length inner)
    by (simpl; rewrite length_append; simpl; lia).
  simpl. rewrite substring_prefix. constructor. lia.
Qed.

Lemma OperatorRead_unique (argument operatorStr : string) :
  OperatorRead argument operatorStr -> operatorStr = readOperator argument.
Proof.
  destruct 1 as [argument Hlen|first last inner Hlen]; unfold readOperator.
  - by rewrite decide_False by lia.
  - rewrite decide_True
      by (simpl; rewrite length_append; simpl; lia).
    replace (String.length (String first (inner +:+ String last "")) - 1 - 1)
      with (String.length inner)
      by (simpl; rewrite length_append; simpl; lia).
    simpl. by rewrite substring_prefix.
Qed.

Lemma compoundOf_chain (operatorStr : string) :
  (if decide (operatorStr = "+") then "+="
   else if decide (operatorStr = "-") then "-="
   else if decide (operatorStr = "/") then "/="
   else if decide (operatorStr = "*") then "*="
   else operatorStr)
  = compoundOf operatorStr.
Proof.
  unfold compoundOf.
  destruct (decide (operatorStr = "+")) as [->|Hplus]; [reflexivity |].
  destruct (decide (operatorStr = "-")) as [->|Hminus]; [reflexivity |].
  destruct (decide (operatorStr = "/")) as [->|Hdiv]; [reflexivity |].
  destruct (decide (operatorStr = "*")) as [->|Hmul]; [reflexivity |].
  simpl. by rewrite !bool_decide_eq_false_2 by congruence.
Qed.

End OperatorArgument.

(** ** The four call builders *)

Section CallBuilders.

Implicit Types (instrInfos : InstructionMetadata.t) (arguments : list string).
Implicit Types (g : Generator).

Lemma relational_call instrInfos arguments callStart start g argument rhs :
  let index := scanParameters "relationalOperator"
                 (InstructionMetadata.parameters instrInfos) start in
  index + 1 < length (InstructionMetadata.parameters instrInfos) ->
  arguments !! index = Some argument ->
  arguments !! (index + 1) = Some rhs ->
  GenerateRelationalOperatorCall instrInfos arguments callStart start g
  = Some (callStart +:+ "("
          +:+ GenerateArgumentsList (remainingArguments arguments start index) 0
          +:+ ") " +:+ readOperator argument +:+ " " +:+ rhs, g).
Proof.
  intros index Hvalue Hargument Hrhs. unfold GenerateRelationalOperatorCall.
  fold index. rewrite decide_False by lia.
  unfold bind, element, ret. rewrite Hargument, Hrhs.
  by rewrite classicArguments_remaining, GenerateArgumentsList_foldl.
Qed.

Lemma compound_call instrInfos arguments callStart start g argument rhs :
  let index := scanParameters "operator"
                 (InstructionMetadata.parameters instrInfos) start in
  index + 1 < length (InstructionMetadata.parameters instrInfos) ->
  arguments !! index = Some argument ->
  arguments !! (index + 1) = Some rhs ->
  GenerateCompoundOperatorCall instrInfos arguments callStart start g
  = Some (callStart +:+ "("
          +:+ GenerateArgumentsList (remainingArguments arguments start index) 0
          +:+ ") " +:+ compoundOf (readOperator argument)
          +:+ " (" +:+ rhs +:+ ")", g).
Proof.
  intros index Hvalue Hargument Hrhs. unfold GenerateCompoundOperatorCall.
  fold index. rewrite decide_False by lia.
  unfold bind, element, ret. rewrite Hargument, Hrhs.
  fold (readOperator argument). rewrite compoundOf_chain.
  by rewrite classicArguments_remaining, GenerateArgumentsList_foldl.
Qed.

Lemma mutator_call instrInfos arguments callStart start g argument rhs :
  let index := scanParameters "operator"
                 (InstructionMetadata.parameters instrInfos) start in
  index + 1 < length (InstructionMetadata.parameters instrInfos) ->
  arguments !! index = Some argument ->
  arguments !! (index + 1) = Some rhs ->
  GenerateMutatorCall instrInfos arguments callStart start g
  = match ExtraInformation.optionalMutators
            (InstructionMetadata.codeExtraInformation instrInfos)
          !! readOperator argument with
    | Some mutator =>
        Some (callStart +:+ "("
              +:+ GenerateArgumentsList
                    (remainingArguments arguments start index) 0
              +:+ ")." +:+ mutator +:+ "(" +:+ rhs +:+ ")", g)
    | None => Some (""%string, setErrorOccurred g)
    end.
Proof.
  intros index Hvalue Hargument Hrhs. unfold GenerateMutatorCall.
  fold index. rewrite decide_False by lia.
  unfold bind at 1. unfold element at 1. rewrite Hargument.
  fold (readOperator argument).
  destruct (_ !! readOperator argument) as [mutator|]; [|done].
  unfold bind, element, ret. rewrite Hrhs.
  by rewrite classicArguments_remaining, GenerateArgumentsList_foldl.
Qed.

Lemma mutator_call_unknown instrInfos arguments callStart start g argument :
  let index := scanParameters "operator"
                 (InstructionMetadata.parameters instrInfos) start in
  index + 1 < length (InstructionMetadata.parameters instrInfos) ->
  arguments !! index = Some argument ->
  ExtraInformation.optionalMutators
    (InstructionMetadata.codeExtraInformation instrInfos)
    !! readOperator argument = None ->
  GenerateMutatorCall instrInfos arguments callStart start g
  = Some (""%string, setErrorOccurred g).
Proof.
  intros index Hvalue Hargument Hunknown. unfold GenerateMutatorCall.
  fold index. rewrite decide_False by lia.
  unfold bind at 1. unfold element at 1. rewrite Hargument.
  fold (readOperator argument). by rewrite Hunknown.
Qed.

(** The setter loop of lines 126-142, with the text of the value slot
    worked out beforehand. *)
Lemma setter_loop arguments (index : nat) (operatorStr getter rhs : string)
    (l : list nat) (argumentsStr : string) :
  let value :=
    if decide (operatorStr <> "="%string) then getter else rhs in
  foldl (fun argumentsStr i =>
           let argumentsStr :=
             if decide (i <> index /\ i <> index + 1) then
               match arguments !! i with
               | Some a => addArgument argumentsStr a
               | None => argumentsStr
               end
             else argumentsStr in
           if decide (i = index + 1) then
             if decide (operatorStr <> "="%string) then
               addArgument argumentsStr getter
             else addArgument argumentsStr rhs
           else argumentsStr)
        argumentsStr l
  = foldl addArgument argumentsStr
      (omap (fun i =>
               if decide (i = index) then None
               else if decide (i = index + 1) then Some value
               else arguments !! i) l).
Proof.
  intros value. revert argumentsStr.
  induction l as [|i l IH]; intros acc; [done |].
  simpl. rewrite IH. clear IH. subst value.
  destruct (arguments !! i);
    repeat case_decide; simplify_eq; simpl; try done; exfalso; lia.
Qed.

Lemma operator_call instrInfos arguments callStart getterStart start g
    argument rhs :
  let index := scanParameters "operator"
                 (InstructionMetadata.parameters instrInfos) start in
  let value :=
    if decide (readOperator argument <> "="%string)
    then getterStart +:+ "("
         +:+ GenerateArgumentsList (remainingArguments arguments start index) 0
         +:+ ") " +:+ readOperator argument +:+ " (" +:+ rhs +:+ ")"
    else rhs in
  index + 1 < length (InstructionMetadata.parameters instrInfos) ->
  arguments !! index = Some argument ->
  arguments !! (index + 1) = Some rhs ->
  GenerateOperatorCall instrInfos arguments callStart getterStart start g
  = Some (callStart +:+ "("
          +:+ GenerateArgumentsList
                (setterArguments arguments start index value) 0
          +:+ ")", g).
Proof.
  intros index value Hvalue Hargument Hrhs. unfold GenerateOperatorCall.
  fold index. rewrite decide_False by lia.
  unfold bind, element, ret. rewrite Hargument, Hrhs.
  fold (readOperator argument).
  rewrite setter_loop, classicArguments_remaining. subst value.
  by rewrite !GenerateArgumentsList_foldl.
Qed.

Lemma builders_report instrInfos arguments callStart getterStart start g :
  (length (InstructionMetadata.parameters instrInfos)
   <= scanParameters "relationalOperator"
        (InstructionMetadata.parameters instrInfos) start + 1 ->
   GenerateRelationalOperatorCall instrInfos arguments callStart start g
   = Some (""%string, setErrorOccurred g))
  /\ (length (InstructionMetadata.parameters instrInfos)
      <= scanParameters "operator"
           (InstructionMetadata.parameters instrInfos) start + 1 ->
      GenerateOperatorCall instrInfos arguments callStart getterStart start g
      = Some (""%string, setErrorOccurred g)
      /\ GenerateCompoundOperatorCall instrInfos arguments callStart start g
         = Some (""%string, setErrorOccurred g)
      /\ GenerateMutatorCall instrInfos arguments callStart start g
         = Some (""%string, setErrorOccurred g)).
Proof.
  split; [intros Hmissing | intros Hmissing; repeat split].
  - unfold GenerateRelationalOperatorCall. by rewrite decide_True by lia.
  - unfold GenerateOperatorCall. by rewrite decide_True by lia.
  - unfold GenerateCompoundOperatorCall. by rewrite decide_True by lia.
  - unfold GenerateMutatorCall. by rewrite decide_True by lia.
Qed.

End CallBuilders.

(** C5. In each of the four builders, when the position found by the scan
    from the start index has no parameter after it (which includes the case
    where no parameter of the wanted type is found, the position then being
    the parameter count), the builder sets the error flag and returns the
    empty string; the mutator builder does the same when the operator it
    reads is not a key of the mutator table. *)
Theorem builders_missing_value :
  forall (instrInfos : InstructionMetadata.t) (arguments : list string)
         (callStart getterStart : string) (start : nat) (g : Generator),
  let parameters := InstructionMetadata.parameters instrInfos in
  (forall target,
      let r := scanParameters target parameters start in
      (r = length parameters
       /\ forall i p, start <= i -> parameters !! i = Some p ->
                      ParameterMetadata.type p <> target)
      \/ (start <= r < length parameters
          /\ (exists p, parameters !! r = Some p
                        /\ ParameterMetadata.type p = target)
          /\ forall i p, r < i -> parameters !! i = Some p ->
                         ParameterMetadata.type p <> target))
  /\ (length parameters
      <= scanParameters "relationalOperator" parameters start + 1 ->
      GenerateRelationalOperatorCall instrInfos arguments callStart start g
      = Some (""%string, setErrorOccurred g))
  /\ (length parameters <= scanParameters "operator" parameters start + 1 ->
      GenerateOperatorCall instrInfos arguments callStart getterStart start g
      = Some (""%string, setErrorOccurred g)
      /\ GenerateCompoundOperatorCall instrInfos arguments callStart start g
         = Some (""%string, setErrorOccurred g)
      /\ GenerateMutatorCall instrInfos arguments callStart start g
         = Some (""%string, setErrorOccurred g))
  /\ (forall argument,
        scanParameters "operator" parameters start + 1 < length parameters ->
        arguments !! scanParameters "operator" parameters start
        = Some argument ->
        ExtraInformation.optionalMutators
          (InstructionMetadata.codeExtraInformation instrInfos)
          !! readOperator argument = None ->
        GenerateMutatorCall instrInfos arguments callStart start g
        = Some (""%string, setErrorOccurred g))
  /\ errorOccurred (setErrorOccurred g) = true.
Proof.
  intros instrInfos arguments callStart getterStart start g parameters.
  split; [intros target; apply scanParameters_spec |].
  destruct (builders_report instrInfos arguments callStart getterStart start g)
    as [Hrelational Hoperator].
  split; [done |]. split; [done |]. split; [|done].
  intros argument Hvalue Hargument Hunknown.
  by apply (mutator_call_unknown _ _ _ _ _ argument).
Qed.

Lemma builders_missing_value_witness :
  GenerateRelationalOperatorCall operatorOnly [DQ +:+ "+" +:+ DQ] "Set" 0
    freshGenerator
  = Some (""%string, setErrorOccurred freshGenerator)
  /\ GenerateCompoundOperatorCall operatorOnly [DQ +:+ "+" +:+ DQ] "Set" 0
       freshGenerator
     = Some (""%string, setErrorOccurred freshGenerator)
  /\ GenerateMutatorCall scaleNumber [DQ +:+ "-" +:+ DQ; "5"%string] "Scale" 0
       freshGenerator
     = Some (""%string, setErrorOccurred freshGenerator).
Proof.
  destruct (builders_missing_value operatorOnly [DQ +:+ "+" +:+ DQ]
              "Set" "Get" 0 freshGenerator)
    as (_ & Hrelational & Hoperator & _).
  destruct (builders_missing_value scaleNumber
              [DQ +:+ "-" +:+ DQ; "5"%string] "Scale" "" 0 freshGenerator)
    as (_ & _ & _ & Hmutator & _).
  split; [apply Hrelational; simpl; lia |].
  split; [apply Hoperator; simpl; lia |].
  apply (Hmutator (DQ +:+ "-" +:+ DQ)); [simpl; lia | reflexivity |].
  vm_compute. reflexivity.
Defined.

(** C10. Each of the four builders uses the compiled operator argument as it
    is when it has at most two characters, and without its first and its
    last character when it is longer, whatever these two characters are:
    the unquoted token abc is read as b. *)
Theorem operator_argument_read :
  (forall argument, exists operatorStr, OperatorRead argument operatorStr)
  /\ (forall (argument operatorStr rhs : string)
             (instrInfos : InstructionMetadata.t) (arguments : list string)
             (callStart getterStart : string) (start : nat) (g : Generator),
        OperatorRead argument operatorStr ->
        let parameters := InstructionMetadata.parameters instrInfos in
        let relationalIndex :=
          scanParameters "relationalOperator" parameters start in
        let index := scanParameters "operator" parameters start in
        (relationalIndex + 1 < length parameters ->
         arguments !! relationalIndex = Some argument ->
         arguments !! (relationalIndex + 1) = Some rhs ->
         GenerateRelationalOperatorCall instrInfos arguments callStart start g
         = Some (callStart +:+ "("
                 +:+ GenerateArgumentsList
                       (remainingArguments arguments start relationalIndex) 0
                 +:+ ") " +:+ operatorStr +:+ " " +:+ rhs, g))
        /\ (index + 1 < length parameters ->
            arguments !! index = Some argument ->
            arguments !! (index + 1) = Some rhs ->
            GenerateOperatorCall instrInfos arguments callStart getterStart
              start g
            = Some (callStart +:+ "("
                    +:+ GenerateArgumentsList
                          (setterArguments arguments start index
                             (if decide (operatorStr <> "="%string)
                              then getterStart +:+ "("
                                   +:+ GenerateArgumentsList
                                         (remainingArguments arguments start
                                            index) 0
                                   +:+ ") " +:+ operatorStr +:+ " (" +:+ rhs
                                   +:+ ")"
                              else rhs)) 0
                    +:+ ")", g)
            /\ GenerateCompoundOperatorCall instrInfos arguments callStart
                 start g
               = Some (callStart +:+ "("
                       +:+ GenerateArgumentsList
                             (remainingArguments arguments start index) 0
                       +:+ ") " +:+ compoundOf operatorStr
                       +:+ " (" +:+ rhs +:+ ")", g)
            /\ GenerateMutatorCall instrInfos arguments callStart start g
               = match ExtraInformation.optionalMutators
                         (InstructionMetadata.codeExtraInformation instrInfos)
                       !! operatorStr with
                 | Some mutator =>
                     Some (callStart +:+ "("
                           +:+ GenerateArgumentsList
                                 (remainingArguments arguments start index) 0
                           +:+ ")." +:+ mutator +:+ "(" +:+ rhs +:+ ")", g)
                 | None => Some (""%string, setErrorOccurred g)
                 end))
  /\ (forall operatorStr,
        OperatorRead "abc" operatorStr <-> operatorStr = "b"%string)
  /\ (forall g,
        GenerateRelationalOperatorCall compareNumber ["abc"; "5"]%string
          "Get" 0 g
        = Some ("Get() b 5"%string, g)).
Proof.
  split; [intros argument; eexists; apply OperatorRead_readOperator |].
  split.
  - intros argument operatorStr rhs instrInfos arguments callStart getterStart
      start g Hread parameters relationalIndex index.
    apply OperatorRead_unique in Hread. subst operatorStr.
    split; [intros; by apply relational_call |].
    intros Hvalue Hargument Hrhs.
    split; [by apply operator_call |].
    split; [by apply compound_call | by apply mutator_call].
  - split; [|done].
    intros operatorStr. split.
    + intros Hread. by apply OperatorRead_unique in Hread.
    + intros ->. apply (OperatorRead_readOperator "abc").
Qed.

Lemma operator_argument_read_witness :
  GenerateRelationalOperatorCall compareNumber
    [DQ +:+ "<=" +:+ DQ; "5"%string] "Get" 0 freshGenerator
  = Some ("Get() <= 5"%string, freshGenerator)
  /\ GenerateCompoundOperatorCall setNumber ["abc"; "5"]%string "Set" 0
       freshGenerator
     = Some ("Set() b (5)"%string, freshGenerator).
Proof.
  destruct operator_argument_read as (_ & Hbuilders & _).
  destruct (Hbuilders (DQ +:+ "<=" +:+ DQ) "<="%string "5"%string
              compareNumber [DQ +:+ "<=" +:+ DQ; "5"%string] "Get" ""%string
              0 freshGenerator (read_inner dquote dquote "<=" ltac:(simpl; lia)))
    as [Hrelational _].
  destruct (Hbuilders "abc"%string "b"%string "5"%string
              setNumber ["abc"; "5"]%string "Set" ""%string
              0 freshGenerator (read_inner "a" "c" "b" ltac:(simpl; lia)))
    as (_ & Hoperator).
  split.
  - apply Hrelational; [simpl; lia | reflexivity | reflexivity].
  - apply Hoperator; [simpl; lia | reflexivity | reflexivity].
Defined.




(** ** Inversion of conditions *)

Section Inversion.
Context `{Collaborators}.

Lemma inversion_scan (l : list ParameterMetadata.t) (found : bool) :
  foldl (fun found p =>
           if decide (ParameterMetadata.type p = "conditionInverted")
           then true else found) found l
  = found || bool_decide ("conditionInverted" ∈ ParameterMetadata.type <$> l).
Proof.
  revert found. induction l as [|p l IH]; intros found; simpl.
  - by rewrite orb_false_r.
  - rewrite IH.
    destruct (decide (ParameterMetadata.type p = "conditionInverted"))
      as [Hp|Hp].
    + simpl. symmetry. apply orb_true_iff. right.
      apply bool_decide_eq_true_2, elem_of_cons. by left.
    + f_equal. apply bool_decide_ext. rewrite elem_of_cons.
      split; [by right | intros [E|E]; [congruence | done]].
Qed.

Lemma conditionAlreadyTakeCareOfInversion_declares instrInfos :
  conditionAlreadyTakeCareOfInversion instrInfos
  = declaresConditionInverted instrInfos.
Proof. apply inversion_scan. Qed.

(** C1, as the code has it.  A free condition with the inverted flag set has
    its predicate wrapped in the negation unless its metadata declares a
    parameter of type [conditionInverted]; an object condition and a
    behavior condition have their predicate wrapped in the negation exactly
    when the inverted flag is set, whatever the metadata declares.  In the
    three kinds the predicate is the one built without inversion, and the
    negation is applied to it at most once. *)
Theorem condition_inversion :
  forall (arguments : list string) (instrInfos : InstructionMetadata.t)
         (returnBoolean objectName behaviorName : string)
         (objInfo : ObjectMetadata) (autoInfo : BehaviorMetadata)
         (context : EventsCodeGenerationContext) (g : Generator),
  (exists built : option (string * Generator),
      forall conditionInverted,
        GenerateFreeCondition arguments instrInfos returnBoolean
          conditionInverted context g
        = match built with
          | Some (predicat, g') =>
              Some (returnBoolean +:+ " = "
                    +:+ (if conditionInverted
                            && negb (declaresConditionInverted instrInfos)
                         then GenerateNegatedPredicat predicat else predicat)
                    +:+ ";" +:+ LF, g')
          | None => None
          end)
  /\ (exists built : option (string * Generator),
        forall conditionInverted,
          GenerateObjectCondition objectName objInfo arguments instrInfos
            returnBoolean conditionInverted context g
          = match built with
            | Some (predicat, g') =>
                Some ("For each picked object " +:+ DQ +:+ objectName +:+ DQ
                      +:+ ", check "
                      +:+ (if conditionInverted
                           then GenerateNegatedPredicat predicat
                           else predicat)
                      +:+ "." +:+ LF, g')
            | None => None
            end)
  /\ (exists built : option (string * Generator),
        forall conditionInverted,
          GenerateBehaviorCondition objectName behaviorName autoInfo arguments
            instrInfos returnBoolean conditionInverted context g
          = match built with
            | Some (predicat, g') =>
                Some ("For each picked object " +:+ DQ +:+ objectName +:+ DQ
                      +:+ ", check "
                      +:+ (if conditionInverted
                           then GenerateNegatedPredicat predicat
                           else predicat)
                      +:+ " for behavior " +:+ DQ +:+ behaviorName +:+ DQ
                      +:+ "." +:+ LF, g')
            | None => None
            end).
Proof.
  intros. repeat split.
  - exists ((if isNumberOrString instrInfos
             then GenerateRelationalOperatorCall instrInfos arguments
                    (functionCallName instrInfos) 0
             else ret (functionCallName instrInfos +:+ "("
                       +:+ GenerateArgumentsList arguments 0 +:+ ")")) g).
    intros conditionInverted. unfold GenerateFreeCondition, bind.
    rewrite conditionAlreadyTakeCareOfInversion_declares.
    destruct (_ g) as [[p g']|]; [|done].
    unfold ret. by rewrite andb_comm.
  - exists (match InstructionMetadata.parameters instrInfos !! 0 with
            | Some parameter0 =>
                let objectFunctionCallNamePart :=
                  if negb (empty (ParameterMetadata.supplementaryInformation
                                    parameter0))
                  then "static_cast<" +:+ className objInfo +:+ "*>("
                       +:+ GetObjectListName objectName context +:+ "[i])->"
                       +:+ functionCallName instrInfos
                  else GetObjectListName objectName context +:+ "[i]->"
                       +:+ functionCallName instrInfos in
                (if isNumberOrString instrInfos
                 then GenerateRelationalOperatorCall instrInfos arguments
                        objectFunctionCallNamePart 1
                 else ret (objectFunctionCallNamePart +:+ "("
                           +:+ GenerateArgumentsList arguments 1 +:+ ")")) g
            | None => None
            end).
    intros conditionInverted. unfold GenerateObjectCondition.
    unfold bind at 1. unfold element.
    destruct (_ !! 0) as [parameter0|]; [|done].
    unfold bind. cbv zeta.
    destruct (_ g) as [[p g']|]; done.
  - exists ((if isNumberOrString instrInfos
             then GenerateRelationalOperatorCall instrInfos arguments "" 2
             else ret ("(" +:+ GenerateArgumentsList arguments 2 +:+ ")")) g).
    intros conditionInverted. unfold GenerateBehaviorCondition, bind.
    destruct (_ g) as [[p g']|]; done.
Qed.

End Inversion.

(** A behavior condition and an object condition whose metadata declare a
    [conditionInverted] parameter are still wrapped in the negation when the
    inverted flag is set. *)
Lemma condition_inversion_counterexample :
  declaresConditionInverted movingCondition = true
  /\ @GenerateBehaviorCondition samplePlatform "Hero" "Walk"
       {| behaviorIncludeFiles := [] |}
       ["Hero"%string; DQ +:+ "Walk" +:+ DQ; "x"%string]
       movingCondition "condition0IsTrue" true noCurrentObject freshGenerator
     = Some ("For each picked object " +:+ DQ +:+ "Hero" +:+ DQ
             +:+ ", check !((x)) for behavior " +:+ DQ +:+ "Walk" +:+ DQ
             +:+ "." +:+ LF, freshGenerator)
  /\ @GenerateBehaviorCondition samplePlatform "Hero" "Walk"
       {| behaviorIncludeFiles := [] |}
       ["Hero"%string; DQ +:+ "Walk" +:+ DQ; "x"%string]
       movingCondition "condition0IsTrue" false noCurrentObject freshGenerator
     = Some ("For each picked object " +:+ DQ +:+ "Hero" +:+ DQ
             +:+ ", check (x) for behavior " +:+ DQ +:+ "Walk" +:+ DQ
             +:+ "." +:+ LF, freshGenerator)
  /\ declaresConditionInverted visibleCondition = true
  /\ @GenerateObjectCondition samplePlatform "Hero"
       {| className := "Sprite"; includeFiles := [] |}
       ["Hero"; "x"]%string
       visibleCondition "condition0IsTrue" true noCurrentObject freshGenerator
     = Some ("For each picked object " +:+ DQ +:+ "Hero" +:+ DQ
             +:+ ", check !(Hero[i]->IsVisible(x))." +:+ LF, freshGenerator).
Proof. repeat split. Qed.

(** ** Operator parameters *)

Section OperatorParameters.
Context `{Collaborators}.

(** C4, as the code has it.  For a parameter of type [relationalOperator],
    [GenerateParameterCodes] strips nothing: it turns [=] into [==], keeps a
    token of the set [==], [<], [>], [<=], [>=], [!=], replaces any other
    token by [==], and wraps the result in double quotes.  For a parameter
    of type [operator] it keeps a token of the set [=], [+], [-], [/], [*],
    replaces any other token by [=], and wraps the result in double quotes.
    It returns in every case and leaves the context and the generator as
    they are. *)
Theorem operator_parameter_codes :
  forall (parameter lastObjectName : string) (metadata : ParameterMetadata.t)
         (context : EventsCodeGenerationContext)
         (supplementaryParametersTypes : option (list (string * string)))
         (g : Generator),
  (ParameterMetadata.type metadata = "relationalOperator"%string ->
   plainParameterType "relationalOperator" ->
   GenerateParameterCodes parameter metadata context lastObjectName
     supplementaryParametersTypes g
   = Some (DQ +:+ (if decide (parameter = "="%string) then "=="%string
                   else if decide (parameter ∈ relationalOperators)
                        then parameter else "=="%string)
           +:+ DQ, context, g))
  /\ (ParameterMetadata.type metadata = "operator"%string ->
      plainParameterType "operator" ->
      GenerateParameterCodes parameter metadata context lastObjectName
        supplementaryParametersTypes g
      = Some (DQ +:+ (if decide (parameter ∈ operators)
                      then parameter else "="%string)
              +:+ DQ, context, g)).
Proof.
  intros. split; intros Htype (Hnumber & Hstring & Hvariable & Hobject);
    unfold GenerateParameterCodes; rewrite Htype;
    rewrite Hnumber, Hstring, Hvariable, Hobject; simpl; unfold ret;
    do 2 f_equal; f_equal.
  - destruct (decide (parameter = "="%string)) as [->|Hequal]; [done |].
    destruct (decide (parameter ∈ relationalOperators)) as [Hin|Hout].
    + rewrite decide_False; [done |]. intros (? & ? & ? & ? & ? & ?).
      unfold relationalOperators in Hin.
      rewrite !elem_of_cons, elem_of_nil in Hin. intuition congruence.
    + rewrite decide_True; [done |].
      repeat split; intros ->; apply Hout; unfold relationalOperators;
        rewrite !elem_of_cons; tauto.
  - destruct (decide (parameter ∈ operators)) as [Hin|Hout].
    + rewrite decide_False; [done |]. intros (? & ? & ? & ? & ?).
      unfold operators in Hin.
      rewrite !elem_of_cons, elem_of_nil in Hin. intuition congruence.
    + rewrite decide_True; [done |].
      repeat split; intros ->; apply Hout; unfold operators;
        rewrite !elem_of_cons; tauto.
Qed.

End OperatorParameters.

Lemma operator_parameter_codes_witness :
  @GenerateParameterCodes samplePlatform "<=" (parameterOfType "relationalOperator")
    noCurrentObject "" None freshGenerator
  = Some (DQ +:+ "<=" +:+ DQ, noCurrentObject, freshGenerator)
  /\ @GenerateParameterCodes samplePlatform "%" (parameterOfType "operator")
       noCurrentObject "" None freshGenerator
     = Some (DQ +:+ "=" +:+ DQ, noCurrentObject, freshGenerator).
Proof.
  split.
  - apply (proj1 (@operator_parameter_codes samplePlatform "<=" ""
                    (parameterOfType "relationalOperator") noCurrentObject
                    None freshGenerator));
      [reflexivity | repeat split].
  - apply (proj2 (@operator_parameter_codes samplePlatform "%" ""
                    (parameterOfType "operator") noCurrentObject
                    None freshGenerator));
      [reflexivity | repeat split].
Defined.

(** A relational operator and an operator that arrive between double
    quotes are not stripped: they fall outside the sets and become the
    defaults, where stripping first would have kept them. *)
Lemma operator_parameter_codes_counterexample :
  @GenerateParameterCodes samplePlatform (DQ +:+ "<" +:+ DQ)
    (parameterOfType "relationalOperator") noCurrentObject "" None
    freshGenerator
  = Some (DQ +:+ "==" +:+ DQ, noCurrentObject, freshGenerator)
  /\ specRelationalOperator (DQ +:+ "<" +:+ DQ) = DQ +:+ "<" +:+ DQ
  /\ @GenerateParameterCodes samplePlatform (DQ +:+ "+" +:+ DQ)
       (parameterOfType "operator") noCurrentObject "" None freshGenerator
     = Some (DQ +:+ "=" +:+ DQ, noCurrentObject, freshGenerator)
  /\ specOperator (DQ +:+ "+" +:+ DQ) = DQ +:+ "+" +:+ DQ.
Proof. repeat split. Qed.

(** ** Expansion of names *)

Section ExpansionFacts.

Implicit Types (groups : ObjectGroupsContainer.t).
Implicit Types (globalObjectsAndGroups objectsAndGroups : ObjectsContainer.t).

Lemma Get_Has groups name group :
  ObjectGroupsContainer.Get groups name = Some group ->
  ObjectGroupsContainer.Has groups name = true
  /\ GetGroupName group = name /\ group ∈ groups
  /\ membersOf groups name = GetAllObjectsNames group.
Proof.
  intros Hget. unfold membersOf. rewrite Hget.
  unfold ObjectGroupsContainer.Get in Hget.
  apply find_some in Hget as [Hin Hname].
  apply bool_decide_eq_true_1 in Hname. apply list_elem_of_In in Hin.
  repeat split; try done.
  apply bool_decide_eq_true_2. rewrite <- Hname.
  by apply list_elem_of_fmap_2.
Qed.

Lemma Has_Get groups name :
  ObjectGroupsContainer.Has groups name = true ->
  exists group, ObjectGroupsContainer.Get groups name = Some group.
Proof.
  intros Hhas. apply bool_decide_eq_true_1 in Hhas.
  apply list_elem_of_fmap in Hhas as (group & Hname & Hin).
  destruct (ObjectGroupsContainer.Get groups name) as [found|] eqn:Hget;
    [by exists found |].
  unfold ObjectGroupsContainer.Get in Hget.
  apply list_elem_of_In in Hin.
  pose proof (find_none _ _ Hget group Hin) as Hno. simpl in Hno.
  by rewrite bool_decide_eq_true_2 in Hno.
Qed.

Lemma existence_filter globalObjectsAndGroups objectsAndGroups l :
  List.filter
    (fun object =>
       negb (negb (ObjectsContainer.HasObjectNamed objectsAndGroups object)
             && negb (ObjectsContainer.HasObjectNamed globalObjectsAndGroups
                        object))) l
  = List.filter (objectExists globalObjectsAndGroups objectsAndGroups) l.
Proof.
  induction l as [|o l IH]; [done |]. simpl. rewrite IH.
  unfold objectExists. by rewrite negb_andb, !negb_involutive.
Qed.

Lemma filter_all {A} (keep : A -> bool) (l : list A) :
  (forall x, x ∈ l -> keep x = true) -> List.filter keep l = l.
Proof.
  induction l as [|x l IH]; intros Hall; [done |]. simpl.
  rewrite (Hall x) by left. f_equal. apply IH.
  intros y Hy. apply Hall. by right.
Qed.

(** C2, as the code has it.  The project's group registry is asked before
    the layout's: a name that is a group of the project expands to that
    group's members, in their order, whether or not the layout has a group
    of the same name; a name that is a group of the layout only expands to
    the layout group's members; a name that is no group stands for itself.
    (The members are those registered as objects; the current object is
    supposed not to be one of them, see C3.) *)
Theorem ExpandObjectsName_resolution :
  forall globalObjectsAndGroups objectsAndGroups
         (objectName : string) (context : EventsCodeGenerationContext),
  let expansion :=
    ExpandObjectsName globalObjectsAndGroups objectsAndGroups objectName
      context in
  let registered := objectExists globalObjectsAndGroups objectsAndGroups in
  (forall group,
      ObjectGroupsContainer.Get
        (ObjectsContainer.GetObjectGroups globalObjectsAndGroups) objectName
      = Some group ->
      GetCurrentObject context ∉ GetAllObjectsNames group ->
      expansion = List.filter registered (GetAllObjectsNames group)
      /\ ((forall object, object ∈ GetAllObjectsNames group ->
                          registered object = true) ->
          expansion = GetAllObjectsNames group))
  /\ (forall group,
        ObjectGroupsContainer.Has
          (ObjectsContainer.GetObjectGroups globalObjectsAndGroups) objectName
        = false ->
        ObjectGroupsContainer.Get
          (ObjectsContainer.GetObjectGroups objectsAndGroups) objectName
        = Some group ->
        GetCurrentObject context ∉ GetAllObjectsNames group ->
        expansion = List.filter registered (GetAllObjectsNames group)
        /\ ((forall object, object ∈ GetAllObjectsNames group ->
                            registered object = true) ->
            expansion = GetAllObjectsNames group))
  /\ (ObjectGroupsContainer.Has
        (ObjectsContainer.GetObjectGroups globalObjectsAndGroups) objectName
      = false ->
      ObjectGroupsContainer.Has
        (ObjectsContainer.GetObjectGroups objectsAndGroups) objectName
      = false ->
      expansion = if registered objectName then [objectName] else []).
Proof.
  intros globalObjectsAndGroups objectsAndGroups objectName context expansion
    registered.
  subst expansion registered. unfold ExpandObjectsName.
  rewrite existence_filter. split; [|split].
  - intros group Hget Hcurrent.
    apply Get_Has in Hget as (-> & _ & _ & ->).
    rewrite decide_False by done. split; [done |].
    intros Hall. by apply filter_all.
  - intros group Hglobal Hget Hcurrent. rewrite Hglobal.
    apply Get_Has in Hget as (-> & _ & _ & ->).
    rewrite decide_False by done. split; [done |].
    intros Hall. by apply filter_all.
  - intros -> ->. case_decide as Hcurrent; [|done].
    apply list_elem_of_singleton in Hcurrent. by rewrite Hcurrent.
Qed.

End ExpansionFacts.

Lemma ExpandObjectsName_resolution_witness :
  ExpandObjectsName projectWithEnemies layoutWithEnemies "Enemies"
    noCurrentObject
  = ["Zombie"%string]
  /\ ExpandObjectsName emptyLayout layoutWithEnemies "Enemies" noCurrentObject
     = List.filter (objectExists emptyLayout layoutWithEnemies)
         ["Ghost"%string]
  /\ ExpandObjectsName projectWithEnemies emptyLayout "Zombie" noCurrentObject
     = ["Zombie"%string].
Proof.
  split; [|split].
  - apply (proj1 (ExpandObjectsName_resolution projectWithEnemies
                    layoutWithEnemies "Enemies" noCurrentObject)
             {| GetGroupName := "Enemies";
                GetAllObjectsNames := ["Zombie"%string] |});
      [reflexivity | by intros ?%list_elem_of_singleton |].
    intros object Hobject. apply list_elem_of_singleton in Hobject.
    by rewrite Hobject.
  - apply (proj1 (proj2 (ExpandObjectsName_resolution emptyLayout
                           layoutWithEnemies "Enemies" noCurrentObject))
             {| GetGroupName := "Enemies";
                GetAllObjectsNames := ["Ghost"%string] |});
      [reflexivity | reflexivity | by intros ?%list_elem_of_singleton].
  - apply (proj2 (proj2 (ExpandObjectsName_resolution projectWithEnemies
                           emptyLayout "Zombie" noCurrentObject)));
      reflexivity.
Defined.

(** A group defined in both registries expands to the project's members,
    not to the layout's. *)
Lemma ExpandObjectsName_resolution_counterexample :
  ObjectGroupsContainer.Has
    (ObjectsContainer.GetObjectGroups projectWithEnemies) "Enemies" = true
  /\ ObjectGroupsContainer.Has
       (ObjectsContainer.GetObjectGroups layoutWithEnemies) "Enemies" = true
  /\ membersOf (ObjectsContainer.GetObjectGroups layoutWithEnemies) "Enemies"
     = ["Ghost"%string]
  /\ objectExists projectWithEnemies layoutWithEnemies "Ghost" = true
  /\ ExpandObjectsName projectWithEnemies layoutWithEnemies "Enemies"
       noCurrentObject
     = ["Zombie"%string]
  /\ ExpandObjectsName projectWithEnemies layoutWithEnemies "Enemies"
       noCurrentObject
     <> membersOf (ObjectsContainer.GetObjectGroups layoutWithEnemies)
          "Enemies".
Proof. repeat split; done. Qed.

Section CurrentObject.

(** C3, as the code has it.  When the current object is one of the members
    of the group the name resolves to (the project's group first), the
    expansion is that object alone if an object of that name is registered
    in the layout or in the project, and it is empty otherwise. *)
Theorem ExpandObjectsName_current_object :
  forall (globalObjectsAndGroups objectsAndGroups : ObjectsContainer.t)
         (objectName : string) (context : EventsCodeGenerationContext),
  let expansion :=
    ExpandObjectsName globalObjectsAndGroups objectsAndGroups objectName
      context in
  let current := GetCurrentObject context in
  let registered := objectExists globalObjectsAndGroups objectsAndGroups in
  (forall group,
      ObjectGroupsContainer.Get
        (ObjectsContainer.GetObjectGroups globalObjectsAndGroups) objectName
      = Some group ->
      current ∈ GetAllObjectsNames group ->
      expansion = if registered current then [current] else [])
  /\ (forall group,
        ObjectGroupsContainer.Has
          (ObjectsContainer.GetObjectGroups globalObjectsAndGroups) objectName
        = false ->
        ObjectGroupsContainer.Get
          (ObjectsContainer.GetObjectGroups objectsAndGroups) objectName
        = Some group ->
        current ∈ GetAllObjectsNames group ->
        expansion = if registered current then [current] else []).
Proof.
  intros globalObjectsAndGroups objectsAndGroups objectName context expansion
    current registered.
  subst expansion current registered. unfold ExpandObjectsName.
  rewrite existence_filter. split.
  - intros group Hget Hcurrent.
    apply Get_Has in Hget as (-> & _ & _ & ->).
    by rewrite decide_True.
  - intros group Hglobal Hget Hcurrent. rewrite Hglobal.
    apply Get_Has in Hget as (-> & _ & _ & ->).
    by rewrite decide_True.
Qed.

End CurrentObject.

Lemma ExpandObjectsName_current_object_witness :
  ExpandObjectsName projectWithHorde emptyLayout "Enemies" noCurrentObject
  = ["Zombie"; "Ghost"]%string
  /\ ExpandObjectsName projectWithHorde emptyLayout "Enemies"
       (iterating "Ghost")
     = ["Ghost"%string]
  /\ ExpandObjectsName emptyLayout projectWithHorde "Enemies"
       (iterating "Ghost")
     = ["Ghost"%string]
  /\ ExpandObjectsName emptyLayout projectWithHorde "Enemies"
       (iterating "Bat")
     = [].
Proof.
  split; [reflexivity |]. split; [|split].
  - apply (proj1 (ExpandObjectsName_current_object projectWithHorde
                    emptyLayout "Enemies" (iterating "Ghost"))
             {| GetGroupName := "Enemies";
                GetAllObjectsNames := ["Zombie"; "Ghost"; "Bat"]%string |});
      [reflexivity | right; left].
  - apply (proj2 (ExpandObjectsName_current_object emptyLayout
                    projectWithHorde "Enemies" (iterating "Ghost"))
             {| GetGroupName := "Enemies";
                GetAllObjectsNames := ["Zombie"; "Ghost"; "Bat"]%string |});
      [reflexivity | reflexivity | right; left].
  - apply (proj2 (ExpandObjectsName_current_object emptyLayout
                    projectWithHorde "Enemies" (iterating "Bat"))
             {| GetGroupName := "Enemies";
                GetAllObjectsNames := ["Zombie"; "Ghost"; "Bat"]%string |});
      [reflexivity | reflexivity | right; right; left].
Defined.

(** The current object is a member of the group, yet the expansion is not
    the list holding that member: no object of that name is registered. *)
Lemma ExpandObjectsName_current_object_counterexample :
  membersOf (ObjectsContainer.GetObjectGroups projectWithStaleGroup) "Enemies"
  = ["Zombie"; "Ghost"]%string
  /\ GetCurrentObject (iterating "Zombie")
     ∈ membersOf (ObjectsContainer.GetObjectGroups projectWithStaleGroup)
         "Enemies"
  /\ ExpandObjectsName projectWithStaleGroup emptyLayout "Enemies"
       (iterating "Zombie")
     = []
  /\ ExpandObjectsName projectWithStaleGroup emptyLayout "Enemies"
       (iterating "Zombie")
     <> ["Zombie"%string].
Proof. repeat split; [by left | done]. Qed.

(** ** Lists of conditions *)

Section ConditionsListFacts.
Context `{Collaborators}.
Variable GenerateConditionCode :
  Instruction -> string -> EventsCodeGenerationContext -> Generator ->
  string * Instruction * EventsCodeGenerationContext * Generator.

Lemma foldl_append_each (f : nat -> string) (l : list nat) (out : string) :
  foldl (fun out i => out +:+ f i) out l = out +:+ concatStrings (f <$> l).
Proof.
  revert out. induction l as [|i l IH]; intros out; simpl.
  - by rewrite append_nil_r.
  - by rewrite IH, append_assoc.
Qed.

Lemma concat_snoc (sep x : string) (l : list string) :
  l <> [] ->
  String.concat sep (l ++ [x]) = String.concat sep l +:+ sep +:+ x.
Proof.
  induction l as [|a l IH]; intros Hl; [done |].
  destruct l as [|b l]; [done |].
  change (String.concat sep ((a :: b :: l) ++ [x]))
    with (a +:+ sep +:+ String.concat sep ((b :: l) ++ [x])).
  rewrite IH by done.
  change (String.concat sep (a :: b :: l))
    with (a +:+ sep +:+ String.concat sep (b :: l)).
  by rewrite !append_assoc.
Qed.

(** The guard after [k] turns of its loop. *)
Lemma skipGuard_prefix (cId k : nat) (out : string) :
  k <= cId ->
  foldl (fun outputCode i =>
           let outputCode :=
             outputCode +:+ (if decide (i = 0) then "if ( " else " && ") in
           let outputCode := outputCode +:+ conditionIsTrue i in
           if decide (i = cId - 1) then outputCode +:+ ") " else outputCode)
        out (seq 0 k)
  = out +:+ (if decide (k = 0) then ""
             else "if ( " +:+ String.concat " && " (conditionIsTrue <$> seq 0 k)
                  +:+ (if decide (k = cId) then ") " else "")).
Proof.
  induction k as [|k IH]; intros Hk.
  - simpl. by rewrite append_nil_r.
  - rewrite seq_S, foldl_app, IH by lia. simpl.
    rewrite fmap_app. simpl.
    destruct (decide (k = 0)) as [->|Hk0].
    + simpl. rewrite append_nil_r.
      destruct (decide (0 = cId - 1)), (decide (1 = cId)); try lia;
        by rewrite !append_assoc.
    + rewrite (decide_False (P := k = cId)) by lia.
      rewrite concat_snoc by (destruct k; [done | by rewrite seq_S; destruct (seq 0 k)]).
      destruct (decide (k = cId - 1)), (decide (S k = cId)); try lia;
        by rewrite ?append_nil_r, !append_assoc.
Qed.

Lemma skipGuard_guardOf (cId : nat) (out : string) :
  skipGuard cId out = out +:+ guardOf cId.
Proof.
  unfold skipGuard, guardOf. rewrite skipGuard_prefix by done.
  destruct (decide (cId = 0)); [done |]. by rewrite decide_True.
Qed.

Lemma conditionsLoop_code (conditions : list Instruction) (cId : nat)
    (out : string) (context : EventsCodeGenerationContext) (g : Generator) :
  (conditionsLoop GenerateConditionCode cId conditions out context g).1.1.1
  = out +:+ concatStrings
              (imap (fun i => guardedCondition (cId + i))
                 (conditionCodes GenerateConditionCode cId conditions
                    context g)).
Proof.
  revert cId out context g.
  induction conditions as [|condition rest IH]; intros cId out context g.
  - simpl. by rewrite append_nil_r.
  - simpl.
    destruct (GenerateConditionCode condition (conditionIsTrue cId) context g)
      as [[[conditionCode condition'] context'] g'].
    specialize (IH (S cId)
                  (if negb (empty (GetType condition'))
                   then skipGuard cId out +:+ "{" +:+ LF +:+ conditionCode
                        +:+ "}"
                   else out +:+ "/* Skipped condition (empty type) */")
                  context' g').
    destruct (conditionsLoop GenerateConditionCode (S cId) rest _ context' g')
      as [[[out' rest'] context''] g''].
    simpl in *. rewrite IH. clear IH.
    rewrite Nat.add_0_r. unfold guardedCondition at 2. simpl.
    rewrite (imap_ext (fun i => guardedCondition (cId + S i))
               (guardedCondition ∘ (fun i => S cId + i)))
      by (intros; simpl; f_equal; lia).
    destruct (negb (empty (GetType condition'))).
    + by rewrite skipGuard_guardOf, !append_assoc.
    + by rewrite !append_assoc.
Qed.

Lemma length_conditionCodes (conditions : list Instruction) (cId : nat)
    (context : EventsCodeGenerationContext) (g : Generator) :
  length (conditionCodes GenerateConditionCode cId conditions context g)
  = length conditions.
Proof.
  revert cId context g.
  induction conditions as [|condition rest IH]; intros cId context g; [done |].
  simpl.
  destruct (GenerateConditionCode condition (conditionIsTrue cId) context g)
    as [[[conditionCode condition'] context'] g'].
  simpl. by rewrite IH.
Qed.

Lemma append_inj_r (a b t : string) : a +:+ t = b +:+ t -> a = b.
Proof.
  revert b. induction a as [|c a IH]; intros b Heq.
  - destruct b as [|d b]; [done |].
    apply (f_equal String.length) in Heq. simpl in Heq.
    rewrite length_append in Heq. lia.
  - destruct b as [|d b].
    + apply (f_equal String.length) in Heq. simpl in Heq.
      rewrite length_append in Heq. lia.
    + simpl in Heq. injection Heq as -> Heq. f_equal. by apply IH.
Qed.

Lemma conditionIsTrue_inj (i j : nat) :
  conditionIsTrue i = conditionIsTrue j -> i = j.
Proof.
  unfold conditionIsTrue, From. intros Heq.
  apply String.app_inj in Heq. apply append_inj_r in Heq.
  by apply (inj pretty) in Heq.
Qed.

(** C6. For a list of [n] conditions the generated text is, first, the
    initialization to false of the flag of every index below [n], in order,
    and then, for every condition in order, either the skip marker when its
    type is empty once its code is generated, or its code between braces
    behind its guard.  The guard of the first condition is empty; the guard
    of condition [i] is one [if] on the conjunction of the flags of
    [0 .. i-1], each once and in order, and distinct indices have distinct
    flags. *)
Theorem conditions_list_code :
  forall (conditions : list Instruction)
         (context : EventsCodeGenerationContext) (g : Generator),
  let generated := conditionCodes GenerateConditionCode 0 conditions context g in
  (GenerateConditionsListCode GenerateConditionCode conditions context g).1.1.1
  = concatStrings
      ((fun k =>
          GenerateBooleanInitializationToFalse (conditionIsTrue k) context)
         <$> seq 0 (length conditions))
    +:+ concatStrings (imap guardedCondition generated)
  /\ length generated = length conditions
  /\ (forall i code condition,
        guardedCondition i (code, condition)
        = if empty (GetType condition)
          then "/* Skipped condition (empty type) */"
          else guardOf i +:+ "{" +:+ LF +:+ code +:+ "}")
  /\ guardOf 0 = ""%string
  /\ (forall i,
        guardOf (S i)
        = "if ( "
          +:+ String.concat " && " (conditionIsTrue <$> seq 0 (S i))
          +:+ ") ")
  /\ (forall i, NoDup (conditionIsTrue <$> seq 0 i)).
Proof.
  intros conditions context g generated. split; [|split; [|split]].
  - unfold GenerateConditionsListCode.
    pose proof (conditionsLoop_code conditions 0
                  (foldl (fun outputCode i =>
                            outputCode
                            +:+ GenerateBooleanInitializationToFalse
                                  (conditionIsTrue i) context)
                     "" (seq 0 (length conditions))) context g) as Hloop.
    destruct (conditionsLoop GenerateConditionCode 0 conditions _ context g)
      as [[[out conditions'] context'] g'].
    simpl in *. rewrite Hloop.
    by rewrite (foldl_append_each
                  (fun i => GenerateBooleanInitializationToFalse
                              (conditionIsTrue i) context)).
  - apply length_conditionCodes.
  - intros i code condition. unfold guardedCondition. simpl.
    by destruct (empty (GetType condition)).
  - split; [done |]. split; [done |]. intros i.
    apply NoDup_fmap_2; [|apply NoDup_seq].
    intros a b. apply conditionIsTrue_inj.
Qed.

End ConditionsListFacts.

(** ** Unique identifiers *)

Section UniqueIds.

Implicit Types (taken : gset Z) (g : Generator).

Local Open Scope Z_scope.

(** Pigeonhole: an interval inside the taken set is no larger than it. *)
Lemma interval_size taken (lo hi : Z) :
  (forall v, lo <= v < hi -> v ∈ taken) ->
  (Z.to_nat (hi - lo) <= size taken)%nat.
Proof.
  intros Hall.
  assert (list_to_set (seqZ lo (hi - lo)) ⊆ taken) as Hsub.
  { intros v Hv. apply elem_of_list_to_set, elem_of_seqZ in Hv.
    apply Hall. lia. }
  apply subseteq_size in Hsub.
  rewrite size_list_to_set in Hsub by apply NoDup_seqZ.
  by rewrite length_seqZ in Hsub.
Qed.

Lemma increment_small (v : Z) : 0 <= v < 2 ^ 64 - 1 -> increment v = v + 1.
Proof. intros Hv. unfold increment. apply Z.mod_small. lia. Qed.

(** The loop, entered at [uniqueId] after every value from [base] up to it
    has been found taken. *)
Lemma firstUnusedId_from (fuel : nat) taken (base uniqueId : Z) :
  0 <= base <= uniqueId ->
  (forall top, (forall v, base <= v <= top -> v ∈ taken) -> top < 2 ^ 64 - 1) ->
  (forall v, base <= v < uniqueId -> v ∈ taken) ->
  (size taken < Z.to_nat (uniqueId - base) + fuel)%nat ->
  exists r,
    firstUnusedId fuel taken uniqueId = Some r
    /\ (r ∉ taken) /\ uniqueId <= r
    /\ forall v, uniqueId <= v < r -> v ∈ taken.
Proof.
  revert uniqueId.
  induction fuel as [|fuel IH]; intros uniqueId Hbase Hwrap Hbelow Hfuel.
  - pose proof (interval_size taken base uniqueId Hbelow). lia.
  - simpl. case_decide as Htaken.
    + assert (uniqueId < 2 ^ 64 - 1) as Hsmall.
      { apply Hwrap. intros v Hv.
        destruct (decide (v = uniqueId)) as [->|]; [done |].
        apply Hbelow. lia. }
      rewrite increment_small by lia.
      destruct (IH (uniqueId + 1)) as (r & Hr & Hfree & Hle & Hbetween);
        [lia | done | | lia |].
      { intros v Hv. destruct (decide (v = uniqueId)) as [->|]; [done |].
        apply Hbelow. lia. }
      exists r. split; [done |]. split; [done |]. split; [lia |].
      intros v Hv. destruct (decide (v = uniqueId)) as [->|]; [done |].
      apply Hbetween. lia.
    + exists uniqueId. split; [done |]. split; [done |]. split; [lia |].
      intros v Hv. lia.
Qed.

Lemma unique_id_call (fuel : nat) (instruction : Z) g :
  0 <= instruction ->
  (forall top,
      (forall v, instruction <= v <= top -> v ∈ instructionUniqueIds g) ->
      top < 2 ^ 64 - 1) ->
  (size (instructionUniqueIds g) < fuel)%nat ->
  exists uniqueId,
    GenerateSingleUsageUniqueIdFor fuel instruction g
    = Some (uniqueId,
            setInstructionUniqueIds ({[uniqueId]} ∪ instructionUniqueIds g) g)
    /\ (uniqueId ∉ instructionUniqueIds g)
    /\ instruction <= uniqueId
    /\ (forall v, instruction <= v < uniqueId -> v ∈ instructionUniqueIds g)
    /\ (instruction ∉ instructionUniqueIds g -> uniqueId = instruction).
Proof.
  intros Hbase Hwrap Hfuel.
  destruct (firstUnusedId_from fuel (instructionUniqueIds g) instruction
              instruction)
    as (r & Hr & Hfree & Hle & Hbetween); [lia | done | lia | lia |].
  exists r. unfold GenerateSingleUsageUniqueIdFor. rewrite Hr.
  split; [done |]. split; [done |]. split; [done |]. split; [done |].
  intros Hfresh. destruct (decide (r = instruction)) as [|Hne]; [done |].
  exfalso. apply Hfresh, Hbetween. lia.
Qed.

Lemma unique_ids_run (fuel : nat) (instructions : list Z) g :
  (forall p, p ∈ instructions ->
             0 <= p
             /\ p + Z.of_nat (size (instructionUniqueIds g))
                + Z.of_nat (length instructions) < 2 ^ 64) ->
  (size (instructionUniqueIds g) + length instructions <= fuel)%nat ->
  exists ids,
    uniqueIdsFor fuel instructions g
    = Some (ids,
            setInstructionUniqueIds
              (list_to_set ids ∪ instructionUniqueIds g) g)
    /\ length ids = length instructions
    /\ NoDup ids
    /\ (forall uniqueId, uniqueId ∈ ids -> uniqueId ∉ instructionUniqueIds g)
    /\ forall (i : nat) p,
         instructions !! i = Some p ->
         exists uniqueId,
           ids !! i = Some uniqueId
           /\ let seen : gset Z :=
                list_to_set (take i ids) ∪ instructionUniqueIds g in
              (uniqueId ∉ seen)
              /\ p <= uniqueId
              /\ (forall v, p <= v < uniqueId -> v ∈ seen)
              /\ (p ∉ seen -> uniqueId = p).
Proof.
  revert g.
  induction instructions as [|p rest IH]; intros g Hrange Hfuel.
  - exists []. simpl. unfold ret. split.
    + do 2 f_equal. destruct g. unfold setInstructionUniqueIds. simpl.
      f_equal. by rewrite (left_id_L ∅ (∪)).
    + split; [done |]. split; [constructor |].
      split; [by intros ? ?%elem_of_nil | by intros i q ?].
  - simpl in Hfuel.
    destruct (Hrange p ltac:(left)) as [Hp Hroom]. simpl in Hroom.
    destruct (unique_id_call fuel p g)
      as (uniqueId & Hcall & Hfree & Hle & Hbetween & Hbase); [done | | lia |].
    { intros top Hall.
      pose proof (interval_size (instructionUniqueIds g) p (top + 1)) as Hsize.
      destruct (decide (top < p)); [lia |].
      assert (Z.to_nat (top + 1 - p) <= size (instructionUniqueIds g))%nat
        by (apply Hsize; intros v Hv; apply Hall; lia).
      lia. }
    set (g1 := setInstructionUniqueIds
                 ({[uniqueId]} ∪ instructionUniqueIds g) g) in *.
    assert (size (instructionUniqueIds g1)
            = S (size (instructionUniqueIds g))) as Hsize1.
    { simpl. rewrite size_union by (by apply disjoint_singleton_l).
      by rewrite size_singleton. }
    destruct (IH g1) as (ids & Hrun & Hlength & Hnodup & Hfresh & Heach).
    { intros q Hq. destruct (Hrange q ltac:(by right)) as [Hq0 Hqroom].
      simpl in Hqroom. split; [done |]. rewrite Hsize1. lia. }
    { rewrite Hsize1. lia. }
    exists (uniqueId :: ids). simpl. unfold bind. rewrite Hcall.
    fold g1. rewrite Hrun. unfold ret. split.
    + do 2 f_equal. unfold setInstructionUniqueIds, g1. simpl.
      f_equal. rewrite (assoc_L (∪)). f_equal. apply (comm_L (∪)).
    + split; [simpl; by rewrite Hlength |].
      split; [|split].
      * constructor; [|done]. intros Hin. apply (Hfresh _ Hin).
        simpl. apply elem_of_union_l. by apply elem_of_singleton.
      * intros v Hv. apply elem_of_cons in Hv as [->|Hv]; [done |].
        intros Hin. apply (Hfresh _ Hv). simpl. by apply elem_of_union_r.
      * intros [|i] q Hq; simpl in Hq.
        -- injection Hq as <-. exists uniqueId. split; [done |]. simpl.
           rewrite (left_id_L ∅ (∪)). done.
        -- destruct (Heach i q Hq) as (id & Hid & Hspec).
           exists id. split; [done |]. simpl in *.
           replace ({[uniqueId]} ∪ list_to_set (take i ids)
                    ∪ instructionUniqueIds g)
             with (list_to_set (take i ids)
                   ∪ ({[uniqueId]} ∪ instructionUniqueIds g)); [done |].
           rewrite !(assoc_L (∪)). f_equal. apply (comm_L (∪)).
Qed.

Lemma same_instruction_twice (fuel : nat) (p : Z) :
  0 <= p < 2 ^ 64 - 1 ->
  uniqueIdsFor (S (S fuel)) [p; p] freshGenerator
  = Some ([p; p + 1],
          setInstructionUniqueIds {[p; p + 1]} freshGenerator).
Proof.
  intros Hp. simpl. unfold bind, GenerateSingleUsageUniqueIdFor. simpl.
  rewrite decide_False by apply not_elem_of_empty. simpl.
  rewrite decide_True
    by (apply elem_of_union_l; by apply elem_of_singleton).
  rewrite increment_small by done.
  assert (p + 1 ∉ ({[p]} ∪ ∅ : gset Z)) as Hnext.
  { rewrite (right_id_L ∅ (∪)). intros Hin%elem_of_singleton. lia. }
  destruct fuel; simpl; rewrite decide_False by done;
    unfold ret; do 2 f_equal; unfold setInstructionUniqueIds; simpl;
    f_equal; rewrite (right_id_L ∅ (∪)); apply (comm_L (∪)).
Qed.

End UniqueIds.

Section UniqueIdsClaim.

Local Open Scope Z_scope.

(** C8, as the code has it.  A call returns an identifier that is not in the
    taken set when the call is made and records it there, so the identifiers
    of a run are pairwise distinct.  The identifier is the smallest value at
    or above the base value (the address of the instruction) that is not
    taken: the base value itself whenever the base value has not been handed
    out yet, which is the case of an instruction met for the first time
    unless an earlier call has been pushed onto its address, and the next
    free value otherwise, as when the same instruction comes again.  Each
    identifier depends only on the instructions met so far.  The loop ends
    as soon as some value between the base and the largest [size_t] is free;
    the fuel only has to exceed the size of the taken set. *)
Theorem unique_ids :
  (forall (fuel : nat) (instruction free : Z) (g : Generator),
      0 <= instruction <= free -> free < 2 ^ 64 ->
      free ∉ instructionUniqueIds g ->
      (size (instructionUniqueIds g) < fuel)%nat ->
      exists uniqueId,
        GenerateSingleUsageUniqueIdFor fuel instruction g
        = Some (uniqueId,
                setInstructionUniqueIds
                  ({[uniqueId]} ∪ instructionUniqueIds g) g)
        /\ (uniqueId ∉ instructionUniqueIds g)
        /\ instruction <= uniqueId <= free
        /\ (forall v, instruction <= v < uniqueId ->
                      v ∈ instructionUniqueIds g)
        /\ (instruction ∉ instructionUniqueIds g -> uniqueId = instruction))
  /\ (forall (fuel : nat) (instructions : list Z) (g : Generator),
        (forall p, p ∈ instructions ->
                   0 <= p
                   /\ p + Z.of_nat (size (instructionUniqueIds g))
                      + Z.of_nat (length instructions) < 2 ^ 64) ->
        (size (instructionUniqueIds g) + length instructions <= fuel)%nat ->
        exists ids,
          uniqueIdsFor fuel instructions g
          = Some (ids,
                  setInstructionUniqueIds
                    (list_to_set ids ∪ instructionUniqueIds g) g)
          /\ length ids = length instructions
          /\ NoDup ids
          /\ (forall uniqueId, uniqueId ∈ ids ->
                               uniqueId ∉ instructionUniqueIds g)
          /\ forall (i : nat) p,
               instructions !! i = Some p ->
               exists uniqueId,
                 ids !! i = Some uniqueId
                 /\ let seen : gset Z :=
                      list_to_set (take i ids) ∪ instructionUniqueIds g in
                    (uniqueId ∉ seen)
                    /\ p <= uniqueId
                    /\ (forall v, p <= v < uniqueId -> v ∈ seen)
                    /\ (p ∉ seen -> uniqueId = p))
  /\ (forall (fuel : nat) (p : Z),
        0 <= p < 2 ^ 64 - 1 ->
        uniqueIdsFor (S (S fuel)) [p; p] freshGenerator
        = Some ([p; p + 1],
                setInstructionUniqueIds {[p; p + 1]} freshGenerator)).
Proof.
  split; [|split].
  - intros fuel instruction free g Hrange Hfree Hnot Hfuel.
    assert (forall top,
               (forall v, instruction <= v <= top ->
                          v ∈ instructionUniqueIds g) ->
               top < free) as Hbelow.
    { intros top Hall. destruct (decide (top < free)) as [|Hge]; [done |].
      exfalso. apply Hnot, Hall. lia. }
    destruct (unique_id_call fuel instruction g)
      as (uniqueId & Hcall & Hfresh & Hle & Hbetween & Hbase);
      [lia | | done |].
    { intros top Hall. specialize (Hbelow top Hall). lia. }
    exists uniqueId. repeat split; try done.
    destruct (decide (uniqueId <= free)) as [|Hgt]; [done |].
    exfalso. apply Hnot, Hbetween. lia.
  - apply unique_ids_run.
  - apply same_instruction_twice.
Qed.

End UniqueIdsClaim.

Lemma unique_ids_witness :
  (exists uniqueId,
      GenerateSingleUsageUniqueIdFor 2 4096 afterOneInstruction
      = Some (uniqueId,
              setInstructionUniqueIds
                ({[uniqueId]} ∪ instructionUniqueIds afterOneInstruction)
                afterOneInstruction)
      /\ uniqueId = 4097%Z)
  /\ (exists ids,
        uniqueIdsFor 3 [4096; 8192; 4096]%Z freshGenerator
        = Some (ids,
                setInstructionUniqueIds
                  (list_to_set ids ∪ instructionUniqueIds freshGenerator)
                  freshGenerator)
        /\ NoDup ids)
  /\ uniqueIdsFor 2 [4096; 4096]%Z freshGenerator
     = Some ([4096; 4097]%Z,
             setInstructionUniqueIds {[4096%Z; 4097%Z]} freshGenerator).
Proof.
  destruct unique_ids as (Hcall & Hrun & Htwice).
  split; [|split].
  - destruct (Hcall 2 4096%Z 4097%Z afterOneInstruction)
      as (uniqueId & Hid & Hfresh & Hle & Hbetween & _).
    + lia.
    + lia.
    + simpl. intros Hin%elem_of_singleton. lia.
    + vm_compute. lia.
    + exists uniqueId. split; [done |].
      destruct (decide (uniqueId = 4096%Z)) as [->|Hne]; [|lia].
      exfalso. apply Hfresh. simpl. by apply elem_of_singleton.
  - destruct (Hrun 3 [4096; 8192; 4096]%Z freshGenerator)
      as (ids & Hids & _ & Hnodup & _).
    + intros p Hp. change (size (instructionUniqueIds freshGenerator)) with 0%nat.
      rewrite !elem_of_cons, elem_of_nil in Hp. simpl. lia.
    + vm_compute. lia.
    + by exists ids.
  - apply (Htwice 0 4096%Z). lia.
Defined.

Lemma conditions_list_code_witness :
  (@GenerateConditionsListCode samplePlatform sampleConditionCode
     [conditionOfType "A"; conditionOfType ""; conditionOfType "C"]
     noCurrentObject freshGenerator).1.1.1
  = "bool condition0IsTrue = false;" +:+ LF
    +:+ "bool condition1IsTrue = false;" +:+ LF
    +:+ "bool condition2IsTrue = false;" +:+ LF
    +:+ "{" +:+ LF +:+ "condition0IsTrue = A();" +:+ LF +:+ "}"
    +:+ "/* Skipped condition (empty type) */"
    +:+ "if ( condition0IsTrue && condition1IsTrue) {" +:+ LF
    +:+ "condition2IsTrue = C();" +:+ LF +:+ "}".
Proof.
  rewrite (proj1 (@conditions_list_code samplePlatform sampleConditionCode
                    [conditionOfType "A"; conditionOfType "";
                     conditionOfType "C"] noCurrentObject freshGenerator)).
  vm_compute. reflexivity.
Defined.

(** An instruction met for the first time does not get its base value when
    an earlier instruction, met again, has been pushed onto it: after 4096
    twice, the instruction at 4097 gets 4098; after 4096 nine times, the
    instruction at 4104 gets 4105. *)
Lemma unique_ids_counterexample :
  uniqueIdsFor 16 [4096; 4096; 4097]%Z freshGenerator
  = Some ([4096; 4097; 4098]%Z,
          setInstructionUniqueIds {[4096%Z; 4097%Z; 4098%Z]} freshGenerator)
  /\ (4097%Z ∉ [4096; 4096]%Z)
  /\ (exists g,
        uniqueIdsFor 16
          [4096; 4096; 4096; 4096; 4096; 4096; 4096; 4096; 4096; 4104]%Z
          freshGenerator
        = Some ([4096; 4097; 4098; 4099; 4100; 4101; 4102; 4103; 4104;
                 4105]%Z, g))
  /\ (4104%Z ∉ [4096; 4096; 4096; 4096; 4096; 4096; 4096; 4096; 4096]%Z).
Proof.
  split; [|split; [|split]].
  - vm_compute. do 2 f_equal.
  - rewrite !not_elem_of_cons. repeat split; [lia | lia | apply not_elem_of_nil].
  - eexists. vm_compute. reflexivity.
  - rewrite !not_elem_of_cons. repeat split; try lia. apply not_elem_of_nil.
Qed.

(** ** Escaping, read back *)

Section EscapingFacts.

Lemma unescape_escapeChar (c : ascii) (t : string) :
  unescape (escapeChar c +:+ t) = String c (unescape t).
Proof.
  unfold escapeChar.
  destruct (decide (c = backslash)) as [->|Hb]; [reflexivity |].
  destruct (decide (c = cr)) as [->|Hr]; [reflexivity |].
  destruct (decide (c = lf)) as [->|Hl]; [reflexivity |].
  destruct (decide (c = dquote)) as [->|Hq]; [reflexivity |].
  simpl. by rewrite decide_False by done.
Qed.

Lemma length_escapeChar (c : ascii) :
  String.length (escapeChar c) = (if isSpecial c then 1 else 0) + 1.
Proof.
  unfold escapeChar, isSpecial.
  destruct (decide (c = backslash)) as [->|Hb]; [reflexivity |].
  destruct (decide (c = cr)) as [->|Hr]; [reflexivity |].
  destruct (decide (c = lf)) as [->|Hl]; [reflexivity |].
  destruct (decide (c = dquote)) as [->|Hq]; [reflexivity |].
  by rewrite !bool_decide_eq_false_2 by done.
Qed.

(** X1. What [ConvertToString] writes reads back as the text it was given:
    undoing the four escape pairs gives the original, so no two texts are
    escaped to the same literal body; the same holds between the quotes
    [ConvertToStringExplicit] adds. *)
Theorem ConvertToString_read_back :
  (forall s, unescape (ConvertToString s) = s)
  /\ (forall s, exists body,
         ConvertToStringExplicit s = DQ +:+ body +:+ DQ
         /\ wellEscaped body = true /\ unescape body = s).
Proof.
  assert (forall s, unescape (ConvertToString s) = s) as Hback.
  { intros s. rewrite ConvertToString_escapeAll.
    induction s as [|c s IH]; [done |]. simpl.
    by rewrite unescape_escapeChar, IH. }
  split; [done |]. intros s. exists (ConvertToString s).
  split; [done |]. split; [|done].
  rewrite ConvertToString_escapeAll. apply wellEscaped_escapeAll.
Qed.

(** X2. Escaping adds exactly one character for every backslash, carriage
    return, line feed and double quote of the text, and it leaves a text
    unchanged exactly when the text holds none of them. *)
Theorem ConvertToString_length :
  (forall s,
      String.length (ConvertToString s) = String.length s + specials s)
  /\ (forall s, ConvertToString s = s <-> specials s = 0).
Proof.
  assert (forall s,
             String.length (ConvertToString s)
             = String.length s + specials s) as Hlength.
  { intros s. rewrite ConvertToString_escapeAll.
    induction s as [|c s IH]; [done |]. simpl.
    rewrite length_append, length_escapeChar, IH. lia. }
  split; [done |]. intros s. split.
  - intros Hsame. specialize (Hlength s). rewrite Hsame in Hlength. lia.
  - rewrite ConvertToString_escapeAll.
    induction s as [|c s IH]; [done |]. simpl. intros Hnone.
    destruct (isSpecial c) eqn:Hc; [lia |].
    rewrite IH by lia. unfold escapeChar, isSpecial in *.
    apply orb_false_iff in Hc as [Hc Hq].
    apply orb_false_iff in Hc as [Hc Hl].
    apply orb_false_iff in Hc as [Hb Hr].
    apply bool_decide_eq_false_1 in Hb, Hr, Hl, Hq.
    by rewrite !decide_False by done.
Qed.

(** X3. Escaping goes through concatenation: the escaped form of two texts
    put together is the two escaped forms put together, and the empty text
    stays empty. *)
Theorem ConvertToString_concatenation :
  ConvertToString "" = ""%string
  /\ (forall a b,
         ConvertToString (a +:+ b) = ConvertToString a +:+ ConvertToString b)
  /\ (forall l,
         ConvertToString (concatStrings l)
         = concatStrings (ConvertToString <$> l)).
Proof.
  split; [done |]. split; [apply ConvertToString_app |].
  induction l as [|a l IH]; [done |]. simpl.
  by rewrite ConvertToString_app, IH.
Qed.

End EscapingFacts.

(** ** What a call builder leaves behind *)

Section BuilderOutcomes.

Implicit Types (instrInfos : InstructionMetadata.t) (arguments : list string).
Implicit Types (g : Generator).

Lemma append_cons_nonempty (a : string) (c : ascii) (b : string) :
  a +:+ String c b <> ""%string.
Proof. by destruct a. Qed.

Lemma relational_outcome instrInfos arguments callStart start g :
  builderOutcome g
    (GenerateRelationalOperatorCall instrInfos arguments callStart start g).
Proof.
  intros text g'. unfold GenerateRelationalOperatorCall.
  case_decide; [intros [= <- <-]; by left |].
  unfold bind, element, ret.
  destruct (arguments !! _) as [argument|]; [|done].
  destruct (arguments !! _) as [rhs|]; [|done].
  intros [= <- <-]. right. split; [|done].
  apply (append_cons_nonempty callStart "(").
Qed.

Lemma operator_outcome instrInfos arguments callStart getterStart start g :
  builderOutcome g
    (GenerateOperatorCall instrInfos arguments callStart getterStart start g).
Proof.
  intros text g'. unfold GenerateOperatorCall.
  case_decide; [intros [= <- <-]; by left |].
  unfold bind, element, ret.
  destruct (arguments !! _) as [argument|]; [|done].
  destruct (arguments !! _) as [rhs|]; [|done].
  intros [= <- <-]. right. split; [|done].
  apply (append_cons_nonempty callStart "(").
Qed.

Lemma compound_outcome instrInfos arguments callStart start g :
  builderOutcome g
    (GenerateCompoundOperatorCall instrInfos arguments callStart start g).
Proof.
  intros text g'. unfold GenerateCompoundOperatorCall.
  case_decide; [intros [= <- <-]; by left |].
  unfold bind, element, ret.
  destruct (arguments !! _) as [argument|]; [|done].
  destruct (arguments !! _) as [rhs|]; [|done].
  intros [= <- <-]. right. split; [|done].
  apply (append_cons_nonempty callStart "(").
Qed.

Lemma mutator_outcome instrInfos arguments callStart start g :
  builderOutcome g
    (GenerateMutatorCall instrInfos arguments callStart start g).
Proof.
  intros text g'. unfold GenerateMutatorCall.
  case_decide; [intros [= <- <-]; by left |].
  unfold bind at 1. unfold element at 1.
  destruct (arguments !! _) as [argument|]; [|done].
  destruct (ExtraInformation.optionalMutators _ !! _) as [mutator|];
    [|intros [= <- <-]; by left].
  unfold bind, element, ret.
  destruct (arguments !! _) as [rhs|]; [|done].
  intros [= <- <-]. right. split; [|done].
  apply (append_cons_nonempty callStart "(").
Qed.

End BuilderOutcomes.

Section BuilderClaims.

Implicit Types (instrInfos : InstructionMetadata.t) (arguments : list string).
Implicit Types (g : Generator).

(** X4. Whenever one of the four builders returns, either it returns the
    empty text and the generator differs from the one it was given by the
    error flag being set, or it returns a non-empty text and the generator
    is the one it was given: an empty text and a reported error go
    together, and a builder never clears the flag nor touches another
    member. *)
Theorem builders_outcome :
  forall instrInfos arguments (callStart getterStart : string) (start : nat) g,
    builderOutcome g
      (GenerateRelationalOperatorCall instrInfos arguments callStart start g)
    /\ builderOutcome g
         (GenerateOperatorCall instrInfos arguments callStart getterStart
            start g)
    /\ builderOutcome g
         (GenerateCompoundOperatorCall instrInfos arguments callStart start g)
    /\ builderOutcome g
         (GenerateMutatorCall instrInfos arguments callStart start g).
Proof.
  intros. split; [apply relational_outcome |].
  split; [apply operator_outcome |].
  split; [apply compound_outcome | apply mutator_outcome].
Qed.

(** X5. When there are at least as many arguments as the metadata has
    parameters, the four builders return: the operator and its value are
    then read inside the argument vector. *)
Theorem builders_return :
  forall instrInfos arguments (callStart getterStart : string) (start : nat) g,
    length (InstructionMetadata.parameters instrInfos) <= length arguments ->
    is_Some (GenerateRelationalOperatorCall instrInfos arguments callStart
               start g)
    /\ is_Some (GenerateOperatorCall instrInfos arguments callStart
                  getterStart start g)
    /\ is_Some (GenerateCompoundOperatorCall instrInfos arguments callStart
                  start g)
    /\ is_Some (GenerateMutatorCall instrInfos arguments callStart start g).
Proof.
  intros instrInfos arguments callStart getterStart start g Hcover.
  assert (forall index,
             ~ length (InstructionMetadata.parameters instrInfos) <= index + 1 ->
             is_Some (arguments !! index)
             /\ is_Some (arguments !! (index + 1))) as Hread.
  { intros index Hin. split; apply lookup_lt_is_Some_2; lia. }
  repeat split.
  - unfold GenerateRelationalOperatorCall. case_decide as Hin; [done |].
    destruct (Hread _ Hin) as [[a Ha] [rhs Hrhs]].
    unfold bind, element, ret. by rewrite Ha, Hrhs.
  - unfold GenerateOperatorCall. case_decide as Hin; [done |].
    destruct (Hread _ Hin) as [[a Ha] [rhs Hrhs]].
    unfold bind, element, ret. by rewrite Ha, Hrhs.
  - unfold GenerateCompoundOperatorCall. case_decide as Hin; [done |].
    destruct (Hread _ Hin) as [[a Ha] [rhs Hrhs]].
    unfold bind, element, ret. by rewrite Ha, Hrhs.
  - unfold GenerateMutatorCall. case_decide as Hin; [done |].
    destruct (Hread _ Hin) as [[a Ha] [rhs Hrhs]].
    unfold bind at 1. unfold element at 1. rewrite Ha.
    destruct (ExtraInformation.optionalMutators _ !! _) as [mutator|];
      [|done].
    unfold bind, element, ret. by rewrite Hrhs.
Qed.

End BuilderClaims.

Lemma builders_outcome_witness :
  ((""%string = ""%string /\ setErrorOccurred freshGenerator
                            = setErrorOccurred freshGenerator)
   \/ (""%string <> ""%string
       /\ setErrorOccurred freshGenerator = freshGenerator))
  /\ (("Set() -= (5)"%string = ""%string
       /\ freshGenerator = setErrorOccurred freshGenerator)
      \/ ("Set() -= (5)"%string <> ""%string
          /\ freshGenerator = freshGenerator)).
Proof.
  split.
  - apply (proj2 (proj2 (proj2 (builders_outcome scaleNumber
                                  [DQ +:+ "-" +:+ DQ; "5"%string] "Scale" ""
                                  0 freshGenerator)))).
    reflexivity.
  - apply (proj1 (proj2 (proj2 (builders_outcome setNumber
                                  [DQ +:+ "-" +:+ DQ; "5"%string] "Set" ""
                                  0 freshGenerator)))).
    reflexivity.
Defined.

Lemma builders_return_witness :
  is_Some (GenerateOperatorCall setNumberOf
             ["Hero"%string; DQ +:+ "+" +:+ DQ; "5"%string] "Set" "Get" 0
             freshGenerator).
Proof.
  apply (builders_return setNumberOf
           ["Hero"%string; DQ +:+ "+" +:+ DQ; "5"%string] "Set" "Get" 0
           freshGenerator).
  simpl. lia.
Defined.

(** ** Operators, compiled and read *)

Section OperatorsReadBack.
Context `{Collaborators}.

Lemma readOperator_quoted (operatorStr : string) :
  1 <= String.length operatorStr ->
  readOperator (DQ +:+ operatorStr +:+ DQ) = operatorStr.
Proof.
  intros Hlength. symmetry.
  apply (OperatorRead_unique (DQ +:+ operatorStr +:+ DQ)).
  by apply (read_inner dquote dquote operatorStr).
Qed.

Lemma elem_of_relationalOperators (token : string) :
  token ∈ relationalOperators
  <-> token = "=="%string \/ token = "<"%string \/ token = ">"%string
      \/ token = "<="%string \/ token = ">="%string \/ token = "!="%string.
Proof.
  unfold relationalOperators. split.
  - intros Hin. repeat (apply elem_of_cons in Hin as [Hin|Hin]); try tauto.
    by apply elem_of_nil in Hin.
  - intros Hin. rewrite !elem_of_cons. tauto.
Qed.

Lemma elem_of_operators (token : string) :
  token ∈ operators
  <-> token = "="%string \/ token = "+"%string \/ token = "-"%string
      \/ token = "/"%string \/ token = "*"%string.
Proof.
  unfold operators. split.
  - intros Hin. repeat (apply elem_of_cons in Hin as [Hin|Hin]); try tauto.
    by apply elem_of_nil in Hin.
  - intros Hin. rewrite !elem_of_cons. tauto.
Qed.

Lemma relational_token (parameter : string) :
  let argOutput :=
    if decide (parameter = "="%string) then "=="%string else parameter in
  let token :=
    if decide (argOutput <> "=="%string /\ argOutput <> "<"%string
               /\ argOutput <> ">"%string /\ argOutput <> "<="%string
               /\ argOutput <> ">="%string /\ argOutput <> "!="%string)
    then "=="%string else argOutput in
  token ∈ relationalOperators
  /\ (parameter ∈ relationalOperators -> token = parameter)
  /\ (parameter ∉ relationalOperators -> token = "=="%string).
Proof.
  intros argOutput token. subst argOutput token.
  rewrite !elem_of_relationalOperators.
  destruct (decide (parameter = "="%string)) as [->|Hequal].
  - rewrite decide_False by (intros (? & _); done).
    split; [tauto |]. split; [|done].
    intros [?|[?|[?|[?|[?|?]]]]]; done.
  - case_decide as Hbad.
    + split; [tauto |]. split; [|done].
      intros [?|[?|[?|[?|[?|?]]]]]; tauto.
    + split; [|split; [done |]].
      * destruct (decide (parameter = "=="%string)); [tauto |].
        destruct (decide (parameter = "<"%string)); [tauto |].
        destruct (decide (parameter = ">"%string)); [tauto |].
        destruct (decide (parameter = "<="%string)); [tauto |].
        destruct (decide (parameter = ">="%string)); [tauto |].
        destruct (decide (parameter = "!="%string)); tauto.
      * intros Hout. exfalso. apply Hbad.
        repeat split; intros ->; apply Hout; tauto.
Qed.

Lemma operator_token (parameter : string) :
  let token :=
    if decide (parameter <> "="%string /\ parameter <> "+"%string
               /\ parameter <> "-"%string /\ parameter <> "/"%string
               /\ parameter <> "*"%string)
    then "="%string else parameter in
  token ∈ operators
  /\ (parameter ∈ operators -> token = parameter)
  /\ (parameter ∉ operators -> token = "="%string).
Proof.
  intros token. subst token. rewrite !elem_of_operators.
  case_decide as Hbad.
  - split; [tauto |]. split; [|done].
    intros [?|[?|[?|[?|?]]]]; tauto.
  - split; [|split; [done |]].
    + destruct (decide (parameter = "="%string)); [tauto |].
      destruct (decide (parameter = "+"%string)); [tauto |].
      destruct (decide (parameter = "-"%string)); [tauto |].
      destruct (decide (parameter = "/"%string)); [tauto |].
      destruct (decide (parameter = "*"%string)); tauto.
    + intros Hout. exfalso. apply Hbad.
      repeat split; intros ->; apply Hout; tauto.
Qed.

Lemma elem_of_nonempty (token : string) (l : list string) :
  token ∈ l -> Forall (fun s => 1 <= String.length s) l ->
  1 <= String.length token.
Proof. intros Hin Hall. by apply (proj1 (Forall_forall _ _) Hall). Qed.

(** X6. What the parameter compiler writes for an operator is what a call
    builder reads: for a parameter of type [operator] or
    [relationalOperator], stripping the compiled text as the builders do
    gives a token of the valid set, the raw token itself when it was valid
    and the default otherwise; the compound assignment written for it is
    therefore one of [=], [+=], [-=], [/=], [*=].  The context and the
    generator are left as they were. *)
Theorem operators_read_back :
  forall (parameter lastObjectName text : string)
         (metadata : ParameterMetadata.t)
         (context context' : EventsCodeGenerationContext)
         (supplementaryParametersTypes : option (list (string * string)))
         (g g' : Generator),
  GenerateParameterCodes parameter metadata context lastObjectName
    supplementaryParametersTypes g
  = Some (text, context', g') ->
  (ParameterMetadata.type metadata = "relationalOperator"%string ->
   plainParameterType "relationalOperator" ->
   readOperator text ∈ relationalOperators
   /\ (parameter ∈ relationalOperators -> readOperator text = parameter)
   /\ (parameter = "="%string -> readOperator text = "=="%string)
   /\ (parameter ∉ relationalOperators -> readOperator text = "=="%string)
   /\ context' = context /\ g' = g)
  /\ (ParameterMetadata.type metadata = "operator"%string ->
      plainParameterType "operator" ->
      readOperator text ∈ operators
      /\ (parameter ∈ operators -> readOperator text = parameter)
      /\ (parameter ∉ operators -> readOperator text = "="%string)
      /\ compoundOf (readOperator text) ∈ compoundOperators
      /\ context' = context /\ g' = g).
Proof.
  intros parameter lastObjectName text metadata context context'
    supplementaryParametersTypes g g' Hcode.
  split; intros Htype (Hnumber & Hstring & Hvariable & Hobject);
    unfold GenerateParameterCodes in Hcode; rewrite Htype in Hcode;
    rewrite Hnumber, Hstring, Hvariable, Hobject in Hcode;
    cbv beta iota zeta in Hcode.
  - rewrite decide_True in Hcode by done.
    unfold ret in Hcode. injection Hcode as <- <- <-.
    destruct (relational_token parameter) as (Hin & Hvalid & Hdefault).
    cbv zeta in Hin, Hvalid, Hdefault.
    match goal with
    | |- context [readOperator (String dquote (?t +:+ DQ))] =>
        generalize dependent t
    end.
    intros token Hin Hvalid Hdefault.
    change (String dquote (token +:+ DQ)) with (DQ +:+ token +:+ DQ).
    rewrite readOperator_quoted
      by (apply (elem_of_nonempty _ relationalOperators);
          [done | repeat constructor]).
    repeat split; try done.
    intros ->. apply Hdefault. rewrite elem_of_relationalOperators.
    intros [?|[?|[?|[?|[?|?]]]]]; done.
  - rewrite (decide_False (P := "operator"%string = _)) in Hcode by done.
    rewrite decide_True in Hcode by done.
    unfold ret in Hcode. injection Hcode as <- <- <-.
    destruct (operator_token parameter) as (Hin & Hvalid & Hdefault).
    cbv zeta in Hin, Hvalid, Hdefault.
    match goal with
    | |- context [readOperator (String dquote (?t +:+ DQ))] =>
        generalize dependent t
    end.
    intros token Hin Hvalid Hdefault.
    change (String dquote (token +:+ DQ)) with (DQ +:+ token +:+ DQ).
    rewrite readOperator_quoted
      by (apply (elem_of_nonempty _ operators);
          [done | repeat constructor]).
    repeat split; try done.
    apply elem_of_operators in Hin.
    unfold compoundOperators. rewrite !elem_of_cons.
    destruct Hin as [-> | [-> | [-> | [-> | ->]]]]; vm_compute; tauto.
Qed.

End OperatorsReadBack.

Lemma operators_read_back_witness :
  readOperator (DQ +:+ "<=" +:+ DQ) ∈ relationalOperators
  /\ compoundOf (readOperator (DQ +:+ "=" +:+ DQ)) ∈ compoundOperators.
Proof.
  split.
  - apply (proj1 (@operators_read_back samplePlatform "<=" ""
                    (DQ +:+ "<=" +:+ DQ)
                    (parameterOfType "relationalOperator") noCurrentObject
                    noCurrentObject None freshGenerator freshGenerator
                    eq_refl));
      [reflexivity | repeat split].
  - apply (proj2 (@operators_read_back samplePlatform "%" ""
                    (DQ +:+ "=" +:+ DQ)
                    (parameterOfType "operator") noCurrentObject
                    noCurrentObject None freshGenerator freshGenerator
                    eq_refl));
      [reflexivity | repeat split].
Defined.

(** ** The arguments around the operator *)

Section ArgumentsAroundOperator.

Implicit Types (arguments : list string).

Lemma omap_seq_ext {A} (f h : nat -> option A) (a n : nat) :
  (forall i, a <= i < a + n -> f i = h i) ->
  omap f (seq a n) = omap h (seq a n).
Proof.
  revert a. induction n as [|n IH]; intros a Hsame; [done |].
  simpl. rewrite (Hsame a) by lia.
  destruct (h a); [f_equal |]; apply IH; intros i Hi; apply Hsame; lia.
Qed.

Lemma omap_seq_none {A} (f : nat -> option A) (a n : nat) :
  (forall i, a <= i < a + n -> f i = None) -> omap f (seq a n) = [].
Proof.
  revert a. induction n as [|n IH]; intros a Hnone; [done |].
  simpl. rewrite (Hnone a) by lia. apply IH. intros i Hi. apply Hnone. lia.
Qed.

Lemma omap_lookup_range arguments (a n : nat) :
  a + n <= length arguments ->
  omap (fun i => arguments !! i) (seq a n) = take n (drop a arguments).
Proof.
  revert a. induction n as [|n IH]; intros a Hrange; [done |].
  simpl. destruct (lookup_lt_is_Some_2 arguments a ltac:(lia)) as [x Hx].
  rewrite Hx. rewrite (drop_S _ _ _ Hx). simpl. f_equal. apply IH. lia.
Qed.

Lemma seq_around (start index len : nat) :
  start <= index -> index + 1 < len ->
  seq start (len - start)
  = seq start (index - start) ++ [index; index + 1]
    ++ seq (index + 2) (len - (index + 2)).
Proof.
  intros Hstart Hin.
  replace (len - start)
    with ((index - start) + (2 + (len - (index + 2)))) by lia.
  rewrite seq_app. f_equal.
  replace (start + (index - start)) with index by lia.
  rewrite seq_app. simpl.
  by replace (S index) with (index + 1) by lia.
Qed.

Lemma remainingArguments_around arguments (start index : nat) :
  start <= index -> index + 1 < length arguments ->
  remainingArguments arguments start index
  = take (index - start) (drop start arguments) ++ drop (index + 2) arguments.
Proof.
  intros Hstart Hin. unfold remainingArguments.
  rewrite (seq_around start index) by done.
  rewrite !omap_app. f_equal.
  - rewrite (omap_seq_ext _ (fun i => arguments !! i)).
    + apply omap_lookup_range. lia.
    + intros i Hi. by rewrite decide_True by lia.
  - simpl. rewrite decide_False by lia. rewrite decide_False by lia.
    rewrite (omap_seq_ext _ (fun i => arguments !! i)).
    + rewrite omap_lookup_range by lia.
      apply take_ge. rewrite length_drop. lia.
    + intros i Hi. by rewrite decide_True by lia.
Qed.

Lemma setterArguments_around arguments (start index : nat) (value : string) :
  start <= index -> index + 1 < length arguments ->
  setterArguments arguments start index value
  = take (index - start) (drop start arguments)
    ++ value :: drop (index + 2) arguments.
Proof.
  intros Hstart Hin. unfold setterArguments.
  rewrite (seq_around start index) by done.
  rewrite !omap_app. f_equal.
  - rewrite (omap_seq_ext _ (fun i => arguments !! i)).
    + apply omap_lookup_range. lia.
    + intros i Hi. by rewrite !decide_False by lia.
  - simpl. rewrite decide_True by done.
    rewrite decide_False by lia. rewrite decide_True by done. f_equal.
    rewrite (omap_seq_ext _ (fun i => arguments !! i)).
    + rewrite omap_lookup_range by lia.
      apply take_ge. rewrite length_drop. lia.
    + intros i Hi. by rewrite !decide_False by lia.
Qed.

Lemma scan_found (target : string) (parameters : list ParameterMetadata.t)
    (start : nat) :
  scanParameters target parameters start + 1 < length parameters ->
  start <= scanParameters target parameters start.
Proof.
  intros Hfound.
  destruct (scanParameters_spec target parameters start)
    as [[Hnone _]|[Hrange _]]; lia.
Qed.

(** X7. The read-modify-write call.  When a value follows the operator and
    the arguments cover the parameters, [GenerateOperatorCall] writes the
    call start applied to the arguments in front of the operator, then the
    value slot, then the arguments after the value; the slot holds the value
    itself for the operator [=], and otherwise the getter applied to the
    same arguments without the slot, the operator, and the value between
    parentheses.  The arguments before the start index are left out, and
    the generator is untouched. *)
Theorem operator_call_shape :
  forall (instrInfos : InstructionMetadata.t) arguments
         (callStart getterStart : string) (start : nat) (g : Generator),
  let parameters := InstructionMetadata.parameters instrInfos in
  let index := scanParameters "operator" parameters start in
  index + 1 < length parameters ->
  length parameters <= length arguments ->
  exists argument rhs,
    arguments !! index = Some argument
    /\ arguments !! (index + 1) = Some rhs
    /\ start <= index
    /\ let before := take (index - start) (drop start arguments) in
       let after := drop (index + 2) arguments in
       let slot :=
         if decide (readOperator argument = "="%string) then rhs
         else getterStart +:+ "("
              +:+ GenerateArgumentsList (before ++ after) 0 +:+ ") "
              +:+ readOperator argument +:+ " (" +:+ rhs +:+ ")" in
       GenerateOperatorCall instrInfos arguments callStart getterStart
         start g
       = Some (callStart +:+ "("
               +:+ GenerateArgumentsList (before ++ slot :: after) 0
               +:+ ")", g).
Proof.
  intros instrInfos arguments callStart getterStart start g parameters index
    Hvalue Hcover.
  destruct (lookup_lt_is_Some_2 arguments index ltac:(lia)) as [argument Ha].
  destruct (lookup_lt_is_Some_2 arguments (index + 1) ltac:(lia))
    as [rhs Hrhs].
  pose proof (scan_found "operator" parameters start Hvalue) as Hstart.
  fold index in Hstart.
  exists argument, rhs. split; [done |]. split; [done |]. split; [done |].
  cbv zeta.
  rewrite (operator_call instrInfos arguments callStart getterStart start g
             argument rhs Hvalue Ha Hrhs).
  fold parameters. fold index.
  rewrite setterArguments_around, remainingArguments_around by lia.
  do 4 f_equal. by destruct (decide (readOperator argument = "="%string));
    [rewrite decide_False by tauto | rewrite decide_True by done].
Qed.

End ArgumentsAroundOperator.

Lemma operator_call_shape_witness :
  exists argument rhs,
    ["Hero"; "x"; "+"; "5"; "y"]%string !! 2 = Some argument
    /\ ["Hero"; "x"; "+"; "5"; "y"]%string !! 3 = Some rhs
    /\ GenerateOperatorCall
         (InstructionMetadata.Build
            [parameterOfType "object"; parameterOfType "expression";
             parameterOfType "operator"; parameterOfType "expression";
             parameterOfType "expression"]
            (ExtraInformation.Build "number"
               ExtraInformation.MutatorAndOrAccessor "Set" "Get" ∅))
         ["Hero"; "x"; "+"; "5"; "y"]%string "Set" "Get" 1 freshGenerator
       = Some ("Set(x, Get(x, y) + (5), y)"%string, freshGenerator).
Proof.
  destruct (operator_call_shape
              (InstructionMetadata.Build
                 [parameterOfType "object"; parameterOfType "expression";
                  parameterOfType "operator"; parameterOfType "expression";
                  parameterOfType "expression"]
                 (ExtraInformation.Build "number"
                    ExtraInformation.MutatorAndOrAccessor "Set" "Get" ∅))
              ["Hero"; "x"; "+"; "5"; "y"]%string "Set" "Get" 1
              freshGenerator)
    as (argument & rhs & Ha & Hrhs & _ & Hcall);
    [simpl; lia | simpl; lia |].
  exists argument, rhs. split; [done |]. split; [done |].
  rewrite Hcall. simpl in Ha, Hrhs.
  injection Ha as <-. injection Hrhs as <-. reflexivity.
Defined.

(** ** Argument lists from any start *)

(** X8. [GenerateArgumentsList] from a start index is the list of the
    arguments from that index on, separated by a comma and a space (empty
    arguments in front of the first non-empty one get no separator); a
    start index at or past the end of the arguments gives the empty text,
    and starting at [n] is starting at the beginning without the first [n]
    arguments. *)
Theorem GenerateArgumentsList_from :
  forall (arguments : list string) (startFrom : nat),
    GenerateArgumentsList arguments startFrom
    = String.concat ", " (skipEmpty (drop startFrom arguments))
    /\ GenerateArgumentsList arguments startFrom
       = GenerateArgumentsList (drop startFrom arguments) 0
    /\ (length arguments <= startFrom ->
        GenerateArgumentsList arguments startFrom = ""%string)
    /\ (Forall (fun a => a <> ""%string) (drop startFrom arguments) ->
        GenerateArgumentsList arguments startFrom
        = String.concat ", " (drop startFrom arguments)).
Proof.
  intros arguments startFrom.
  assert (GenerateArgumentsList arguments startFrom
          = foldl addArgument "" (drop startFrom arguments)) as Hfold.
  { unfold GenerateArgumentsList. rewrite foldl_selected. f_equal.
    destruct (decide (startFrom <= length arguments)) as [Hle|Hgt].
    - rewrite omap_lookup_range by lia.
      apply take_ge. rewrite length_drop. lia.
    - replace (length arguments - startFrom) with 0 by lia.
      rewrite drop_ge; [done | lia]. }
  split; [by rewrite Hfold, foldl_addArgument_concat |].
  split; [by rewrite Hfold, GenerateArgumentsList_foldl |].
  split.
  - intros Hpast. rewrite Hfold, drop_ge; [done | lia].
  - intros Hall. by rewrite Hfold, foldl_addArgument_concat, skipEmpty_id.
Qed.

Lemma GenerateArgumentsList_from_witness :
  GenerateArgumentsList ["Hero"; "x"]%string 2 = ""%string
  /\ GenerateArgumentsList ["Hero"; "x"; "y"]%string 1
     = String.concat ", " (drop 1 ["Hero"; "x"; "y"]%string).
Proof.
  split.
  - apply (proj1 (proj2 (proj2
             (GenerateArgumentsList_from ["Hero"; "x"]%string 2)))).
    simpl. lia.
  - apply (proj2 (proj2 (proj2
             (GenerateArgumentsList_from ["Hero"; "x"; "y"]%string 1)))).
    simpl. by repeat constructor.
Defined.

(** ** What an expansion holds *)

Section ExpansionResults.

Implicit Types (globalObjectsAndGroups objectsAndGroups : ObjectsContainer.t).

Lemma membersOf_elem (groups : ObjectGroupsContainer.t) (name object : string) :
  object ∈ membersOf groups name ->
  exists group,
    group ∈ groups /\ GetGroupName group = name
    /\ object ∈ GetAllObjectsNames group.
Proof.
  unfold membersOf.
  destruct (ObjectGroupsContainer.Get groups name) as [group|] eqn:Hget;
    [|by intros ?%elem_of_nil].
  intros Hin. apply Get_Has in Hget as (_ & Hname & Hgroup & _).
  by exists group.
Qed.

(** X9. An expansion only holds names of registered objects, whatever the
    groups list: every name returned is an object of the layout or of the
    project, and it is the expanded name itself or a member of a group of
    that name in one of the two registries. *)
Theorem ExpandObjectsName_registered :
  forall globalObjectsAndGroups objectsAndGroups (objectName : string)
         (context : EventsCodeGenerationContext),
    Forall
      (fun object =>
         objectExists globalObjectsAndGroups objectsAndGroups object = true
         /\ (object = objectName
             \/ exists group,
                  (group ∈ ObjectsContainer.GetObjectGroups
                             globalObjectsAndGroups
                   \/ group ∈ ObjectsContainer.GetObjectGroups
                                objectsAndGroups)
                  /\ GetGroupName group = objectName
                  /\ object ∈ GetAllObjectsNames group))
      (ExpandObjectsName globalObjectsAndGroups objectsAndGroups objectName
         context).
Proof.
  intros globalObjectsAndGroups objectsAndGroups objectName context.
  apply Forall_forall. intros object Hin.
  unfold ExpandObjectsName in Hin. rewrite existence_filter in Hin.
  apply list_elem_of_In, filter_In in Hin as [Hin Hregistered].
  apply list_elem_of_In in Hin. split; [done |].
  assert (forall candidates : list string,
             object ∈ (if decide (GetCurrentObject context ∈ candidates)
                       then [GetCurrentObject context] else candidates) ->
             object ∈ candidates) as Hcollapse.
  { intros candidates.
    destruct (decide (GetCurrentObject context ∈ candidates))
      as [Hcurrent|Hcurrent]; [|done].
    intros Heq%list_elem_of_singleton. by rewrite Heq. }
  apply Hcollapse in Hin.
  destruct (ObjectGroupsContainer.Has
              (ObjectsContainer.GetObjectGroups globalObjectsAndGroups)
              objectName).
  - right. apply membersOf_elem in Hin as (group & Hgroup & Hname & Hmember).
    exists group. tauto.
  - destruct (ObjectGroupsContainer.Has
                (ObjectsContainer.GetObjectGroups objectsAndGroups)
                objectName).
    + right. apply membersOf_elem in Hin as (group & Hgroup & Hname & Hmember).
      exists group. tauto.
    + left. by apply list_elem_of_singleton in Hin.
Qed.

(** X10. Expanding a name an expansion has returned gives that name alone,
    in any context, as long as the name is not itself the name of a group:
    the objects an instruction is generated for expand to themselves. *)
Theorem ExpandObjectsName_stable :
  forall globalObjectsAndGroups objectsAndGroups (objectName object : string)
         (context context' : EventsCodeGenerationContext),
    object ∈ ExpandObjectsName globalObjectsAndGroups objectsAndGroups
               objectName context ->
    ObjectGroupsContainer.Has
      (ObjectsContainer.GetObjectGroups globalObjectsAndGroups) object
    = false ->
    ObjectGroupsContainer.Has
      (ObjectsContainer.GetObjectGroups objectsAndGroups) object
    = false ->
    ExpandObjectsName globalObjectsAndGroups objectsAndGroups object context'
    = [object].
Proof.
  intros globalObjectsAndGroups objectsAndGroups objectName object context
    context' Hin Hglobal Hlocal.
  assert (objectExists globalObjectsAndGroups objectsAndGroups object = true)
    as Hregistered.
  { unfold ExpandObjectsName in Hin. rewrite existence_filter in Hin.
    by apply list_elem_of_In, filter_In in Hin as [_ Hregistered]. }
  unfold ExpandObjectsName. rewrite existence_filter, Hglobal, Hlocal.
  case_decide as Hcurrent.
  - apply list_elem_of_singleton in Hcurrent. rewrite Hcurrent. simpl.
    by rewrite Hregistered.
  - simpl. by rewrite Hregistered.
Qed.

End ExpansionResults.

Lemma ExpandObjectsName_stable_witness :
  ExpandObjectsName projectWithEnemies layoutWithEnemies "Zombie"
    (iterating "Ghost")
  = ["Zombie"%string].
Proof.
  apply (ExpandObjectsName_stable projectWithEnemies layoutWithEnemies
           "Enemies" "Zombie" noCurrentObject (iterating "Ghost"));
    [by left | reflexivity | reflexivity].
Defined.

(** ** Useless events *)

Section UselessEvents.

Implicit Types (event : BaseEvent) (events : list BaseEvent).

Lemma nestingOf_cons event events :
  nestingOf (event :: events) = Nat.max (nesting event) (nestingOf events).
Proof. reflexivity. Qed.

Lemma nesting_elem event events :
  event ∈ events -> nesting event <= nestingOf events.
Proof.
  induction events as [|first rest IH]; [by intros ?%elem_of_nil |].
  rewrite nestingOf_cons. intros [->|Hin]%elem_of_cons; [lia |].
  specialize (IH Hin). lia.
Qed.

Lemma nesting_subEvents event :
  nestingOf (GetSubEvents event) < nesting event.
Proof. destruct event. simpl. unfold nestingOf. lia. Qed.

(** Induction on a tree of events, from the sub events up. *)
Lemma events_induction (P : list BaseEvent -> Prop) :
  (forall events,
      (forall event, event ∈ events -> P (GetSubEvents event)) -> P events) ->
  forall events, P events.
Proof.
  intros Hstep.
  assert (forall n events, nestingOf events < n -> P events) as Hbound.
  { induction n as [|n IH]; intros events Hn; [lia |].
    apply Hstep. intros event Hin. apply IH.
    pose proof (nesting_elem event events Hin).
    pose proof (nesting_subEvents event). lia. }
  intros events. apply (Hbound (S (nestingOf events))). lia.
Qed.

Lemma isUseful_cleanEvent event : isUseful (cleanEvent event) = isUseful event.
Proof. by destruct event. Qed.

Lemma cleanEvent_step event :
  cleanEvent event
  = if CanHaveSubEvents event
    then setSubEvents (cleanEvents (GetSubEvents event)) event
    else event.
Proof. destruct event as [executable disabled [] subEvents]; reflexivity. Qed.

Lemma cleanEvents_cons event events :
  cleanEvents (event :: events)
  = if isUseful event then cleanEvent event :: cleanEvents events
    else cleanEvents events.
Proof. unfold cleanEvents. simpl. by rewrite isUseful_cleanEvent. Qed.

(** The loop, once the events from [k] on are done. *)
Lemma delete_loop (fuel : nat) events (k : nat) :
  (forall event, event ∈ events ->
     DeleteUselessEvents fuel (GetSubEvents event)
     = Some (cleanEvents (GetSubEvents event))) ->
  k <= length events ->
  foldl (fun state eId =>
           match state with
           | None => None
           | Some events =>
               match events !! eId with
               | None => None
               | Some event =>
                   match
                     (if CanHaveSubEvents event
                      then option_map (fun subEvents =>
                                         setSubEvents subEvents event)
                             (DeleteUselessEvents fuel (GetSubEvents event))
                      else Some event)
                   with
                   | None => None
                   | Some event =>
                       let events := <[eId := event]> events in
                       if negb (IsExecutable event) || IsDisabled event
                       then Some (delete eId events)
                       else Some events
                   end
               end
           end)
        (Some (take k events ++ cleanEvents (drop k events)))
        (rev (seq 0 k))
  = Some (cleanEvents events).
Proof.
  intros Hsub. induction k as [|k IH]; intros Hk; [done |].
  rewrite seq_S, rev_app_distr. simpl.
  destruct (lookup_lt_is_Some_2 events k ltac:(lia)) as [event Hevent].
  rewrite (take_S_r _ _ _ Hevent), <- app_assoc. simpl.
  assert (length (take k events) = k) as Hlength
    by (apply length_take_le; lia).
  rewrite <- Hlength at 1. rewrite list_lookup_middle by done.
  assert ((if CanHaveSubEvents event
           then option_map (fun subEvents => setSubEvents subEvents event)
                  (DeleteUselessEvents fuel (GetSubEvents event))
           else Some event)
          = Some (cleanEvent event)) as ->.
  { rewrite cleanEvent_step.
    destruct (CanHaveSubEvents event); [|done].
    rewrite Hsub; [done |]. by apply list_elem_of_lookup_2 in Hevent. }
  rewrite insert_app_r_alt by lia.
  replace (k - length (take k events)) with 0 by lia. simpl.
  assert (negb (IsExecutable (cleanEvent event))
          || IsDisabled (cleanEvent event)
          = negb (isUseful event)) as ->.
  { rewrite <- isUseful_cleanEvent. unfold isUseful.
    by rewrite negb_andb, negb_involutive. }
  rewrite <- IH by lia. f_equal.
  rewrite (drop_S _ _ _ Hevent), cleanEvents_cons.
  destruct (isUseful event); simpl; [done |].
  rewrite <- Hlength at 1. by rewrite delete_middle.
Qed.

Lemma delete_clean events :
  forall fuel,
    nestingOf events < fuel ->
    DeleteUselessEvents fuel events = Some (cleanEvents events).
Proof.
  induction events as [events IH] using events_induction.
  intros [|fuel] Hfuel; [lia |]. simpl.
  pose proof (delete_loop fuel events (length events)) as Hloop.
  rewrite take_ge, drop_ge, app_nil_r in Hloop by lia.
  apply Hloop; [|done].
  intros event Hin. apply IH; [done |].
  pose proof (nesting_elem event events Hin).
  pose proof (nesting_subEvents event). lia.
Qed.

Lemma cleanEvents_useful events :
  forallb allUseful (cleanEvents events) = true.
Proof.
  induction events as [events IH] using events_induction.
  induction events as [|event rest IHrest]; [done |].
  rewrite cleanEvents_cons.
  assert (forallb allUseful (cleanEvents rest) = true) as Hrest.
  { apply IHrest. intros sub Hsub. apply IH. by right. }
  destruct (isUseful event) eqn:Huseful; [|done].
  simpl. rewrite Hrest, andb_true_r.
  specialize (IH event ltac:(left)).
  destruct event as [executable disabled [] subEvents]; simpl in *;
    unfold isUseful in Huseful; simpl in Huseful; rewrite Huseful; [|done].
  exact IH.
Qed.

Lemma cleanEvents_id events :
  forallb allUseful events = true -> cleanEvents events = events.
Proof.
  induction events as [events IH] using events_induction.
  induction events as [|event rest IHrest]; [done |].
  simpl. intros [Hevent Hrest]%andb_true_iff.
  rewrite cleanEvents_cons.
  rewrite IHrest; [|intros sub Hsub; apply IH; by right | done].
  specialize (IH event ltac:(left)).
  destruct event as [executable disabled canHaveSubEvents subEvents].
  simpl in *.
  apply andb_true_iff in Hevent as [Huseful Hsubs].
  unfold isUseful. simpl. rewrite Huseful. f_equal.
  destruct canHaveSubEvents; [|done].
  f_equal. exact (IH Hsubs).
Qed.

Lemma nestingOf_cleanEvents events :
  nestingOf (cleanEvents events) <= nestingOf events.
Proof.
  induction events as [events IH] using events_induction.
  induction events as [|event rest IHrest]; [done |].
  rewrite cleanEvents_cons.
  assert (nestingOf (cleanEvents rest) <= nestingOf rest) as Hrest.
  { apply IHrest. intros sub Hsub. apply IH. by right. }
  specialize (IH event ltac:(left)).
  assert (nesting (cleanEvent event) <= nesting event) as Hevent.
  { destruct event as [executable disabled [] subEvents]; simpl in *; [|done].
    fold (cleanEvents subEvents). fold (nestingOf (cleanEvents subEvents)).
    fold (nestingOf subEvents). lia. }
  destruct (isUseful event); rewrite !nestingOf_cons; lia.
Qed.

(** X11. Given fuel above the nesting of the tree, [DeleteUselessEvents]
    returns the tree in which, at every level reached through events that
    can have sub events, the events that are not executable or are disabled
    are gone and the others stand in their order.  Every event left is
    executable and enabled, all the way down; a second pass changes
    nothing; a tree that holds only such events is returned as it is, and
    so is the empty list. *)
Theorem DeleteUselessEvents_cleans :
  forall (fuel : nat) events,
    nestingOf events < fuel ->
    DeleteUselessEvents fuel events = Some (cleanEvents events)
    /\ forallb allUseful (cleanEvents events) = true
    /\ DeleteUselessEvents fuel (cleanEvents events)
       = Some (cleanEvents events)
    /\ (forallb allUseful events = true ->
        DeleteUselessEvents fuel events = Some events)
    /\ DeleteUselessEvents fuel [] = Some [].
Proof.
  intros fuel events Hfuel.
  split; [by apply delete_clean |].
  split; [apply cleanEvents_useful |].
  split.
  - rewrite delete_clean
      by (pose proof (nestingOf_cleanEvents events); lia).
    f_equal. apply cleanEvents_id, cleanEvents_useful.
  - split.
    + intros Huseful. rewrite delete_clean by done.
      f_equal. by apply cleanEvents_id.
    + destruct fuel; [lia | done].
Qed.

End UselessEvents.

Lemma DeleteUselessEvents_cleans_witness :
  nestingOf sampleEvents < 3
  /\ DeleteUselessEvents 3 sampleEvents
     = Some [standardEvent [standardEvent []]; standardEvent []].
Proof.
  split; [vm_compute; lia |].
  exact (proj1 (DeleteUselessEvents_cleans 3 sampleEvents
                  ltac:(vm_compute; lia))).
Defined.

(** ** Parameters written as literals *)

Section RawTextParameters.
Context `{Collaborators}.

Lemma supplementaryText_matching (type : string)
    (types : list (string * string)) :
  supplementaryText type types = concatStrings (matchingTexts type types).
Proof.
  unfold supplementaryText, matchingTexts.
  assert (forall argOutput,
             foldl (fun argOutput entry =>
                      if decide (entry.1 = type) then argOutput +:+ entry.2
                      else argOutput)
               argOutput types
             = argOutput
               +:+ concatStrings
                     (snd <$> filter (fun entry => entry.1 = type) types))
    as Hloop.
  { induction types as [|entry types IH]; intros argOutput; simpl.
    - by rewrite append_nil_r.
    - rewrite IH, filter_cons.
      destruct (decide (entry.1 = type)); [|done].
      simpl. by rewrite append_assoc. }
  exact (Hloop ""%string).
Qed.

Lemma named_type (type : string) :
  type ∉ namedParameterTypes ->
  forall name,
    bool_decide (name ∈ namedParameterTypes) = true -> type <> name.
Proof. intros Hout name Hname%bool_decide_eq_true_1 ->. done. Qed.

(** X12. A parameter whose type is neither expression-like nor an object
    is written as the quoted, escaped literal of its raw text when the type
    is a behavior, or one of the key, resource and mouse types, whatever the
    supplementary table holds.  For a type the dispatch does not name, the
    table is read: the texts of all its entries of that type are put
    together in order, and the literal is written only when that gives
    nothing.  In each case the context and the generator are left as they
    were. *)
Theorem parameter_codes_raw_text :
  forall (parameter lastObjectName : string) (metadata : ParameterMetadata.t)
         (context : EventsCodeGenerationContext)
         (supplementaryParametersTypes : option (list (string * string)))
         (g : Generator),
  plainParameterType (ParameterMetadata.type metadata) ->
  (IsBehavior (ParameterMetadata.type metadata) = true ->
   ParameterMetadata.type metadata <> "relationalOperator"%string ->
   ParameterMetadata.type metadata <> "operator"%string ->
   GenerateParameterCodes parameter metadata context lastObjectName
     supplementaryParametersTypes g
   = Some (ConvertToStringExplicit parameter, context, g))
  /\ (IsBehavior (ParameterMetadata.type metadata) = false ->
      ParameterMetadata.type metadata ∈ literalParameterTypes ->
      GenerateParameterCodes parameter metadata context lastObjectName
        supplementaryParametersTypes g
      = Some (ConvertToStringExplicit parameter, context, g))
  /\ (IsBehavior (ParameterMetadata.type metadata) = false ->
      ParameterMetadata.type metadata ∉ namedParameterTypes ->
      let text :=
        match supplementaryParametersTypes with
        | Some types =>
            concatStrings
              (matchingTexts (ParameterMetadata.type metadata) types)
        | None => ""%string
        end in
      GenerateParameterCodes parameter metadata context lastObjectName
        supplementaryParametersTypes g
      = Some (if empty text then ConvertToStringExplicit parameter else text,
              context, g)).
Proof.
  intros parameter lastObjectName [type info] context
    supplementaryParametersTypes g (Hnumber & Hstring & Hvariable & Hobject).
  unfold GenerateParameterCodes.
  change (ParameterMetadata.type (ParameterMetadata.Build type info))
    with type in *.
  rewrite Hnumber, Hstring, Hvariable, Hobject. cbv beta iota zeta.
  split; [|split].
  - intros Hbehavior Hrelational Hoperator.
    rewrite !decide_False by done. by rewrite Hbehavior.
  - intros Hbehavior Hliteral. unfold literalParameterTypes in Hliteral.
    repeat (apply elem_of_cons in Hliteral as [->|Hliteral];
            [rewrite Hbehavior; reflexivity |]).
    by apply elem_of_nil in Hliteral.
  - intros Hbehavior Hout. rewrite Hbehavior.
    pose proof (named_type type Hout) as Hname.
    rewrite (decide_False (P := type = "relationalOperator"%string))
      by (apply Hname; vm_compute; reflexivity).
    rewrite (decide_False (P := type = "operator"%string))
      by (apply Hname; vm_compute; reflexivity).
    rewrite (decide_False (P := type = "key"%string))
      by (apply Hname; vm_compute; reflexivity).
    rewrite (decide_False (P := type = "audioResource"%string \/ _))
      by (intros Hor; destruct_or!; revert Hor; apply Hname; vm_compute;
          reflexivity).
    rewrite (decide_False (P := type = "mouse"%string))
      by (apply Hname; vm_compute; reflexivity).
    rewrite (decide_False (P := type = "yesorno"%string))
      by (apply Hname; vm_compute; reflexivity).
    rewrite (decide_False (P := type = "trueorfalse"%string))
      by (apply Hname; vm_compute; reflexivity).
    rewrite (decide_False (P := type = "inlineCode"%string))
      by (apply Hname; vm_compute; reflexivity).
    unfold ret.
    destruct supplementaryParametersTypes as [types|]; [|done].
    rewrite supplementaryText_matching.
    destruct (concatStrings (matchingTexts type types)); done.
Qed.

End RawTextParameters.

Lemma parameter_codes_raw_text_witness :
  @GenerateParameterCodes samplePlatform "C:\a" (parameterOfType "soundfile")
    noCurrentObject "" None freshGenerator
  = Some (DQ +:+ "C:\\a" +:+ DQ, noCurrentObject, freshGenerator)
  /\ @GenerateParameterCodes samplePlatform "7" (parameterOfType "layerEffect")
       noCurrentObject ""
       (Some [("layerEffect", "effect("); ("other", "no");
              ("layerEffect", ")")]%string)
       freshGenerator
     = Some ("effect()"%string, noCurrentObject, freshGenerator).
Proof.
  split.
  - apply (proj1 (proj2 (@parameter_codes_raw_text samplePlatform "C:\a" ""
                           (parameterOfType "soundfile") noCurrentObject None
                           freshGenerator ltac:(repeat split))));
      [reflexivity |].
    apply (bool_decide_unpack _). vm_compute. exact I.
  - apply (proj2 (proj2 (@parameter_codes_raw_text samplePlatform "7" ""
                           (parameterOfType "layerEffect") noCurrentObject
                           (Some [("layerEffect", "effect("); ("other", "no");
                                  ("layerEffect", ")")]%string)
                           freshGenerator ltac:(repeat split))));
      [reflexivity |].
    apply (bool_decide_unpack _). vm_compute. exact I.
Defined.

(** ** What an action leaves behind *)

Section ActionOutcomes.

Implicit Types (instrInfos : InstructionMetadata.t) (arguments : list string).
Implicit Types (g : Generator).

Lemma operator_result instrInfos arguments callStart getterStart start g :
  length (InstructionMetadata.parameters instrInfos) <= length arguments ->
  exists call g',
    GenerateOperatorCall instrInfos arguments callStart getterStart start g
    = Some (call, g')
    /\ (valueMissing instrInfos start ->
        call = ""%string /\ g' = setErrorOccurred g)
    /\ (~ valueMissing instrInfos start -> call <> ""%string /\ g' = g).
Proof.
  intros Hcover. unfold valueMissing.
  destruct (decide (length (InstructionMetadata.parameters instrInfos)
                    <= scanParameters "operator"
                         (InstructionMetadata.parameters instrInfos) start
                       + 1)) as [Hmissing|Hvalue].
  - exists ""%string, (setErrorOccurred g).
    split; [|split; [done | intros Hnot; by destruct Hnot]].
    by apply (proj2 (builders_report instrInfos arguments callStart
                       getterStart start g)).
  - destruct (lookup_lt_is_Some_2 arguments
                (scanParameters "operator"
                   (InstructionMetadata.parameters instrInfos) start)
                ltac:(lia)) as [argument Hargument].
    destruct (lookup_lt_is_Some_2 arguments
                (scanParameters "operator"
                   (InstructionMetadata.parameters instrInfos) start + 1)
                ltac:(lia)) as [rhs Hrhs].
    eexists _, g. split; [|split; [done |]].
    + apply (operator_call instrInfos arguments callStart getterStart start g
               argument rhs); [lia | done | done].
    + intros _. split; [|done].
      apply (append_cons_nonempty callStart "(").
Qed.

Lemma compound_result instrInfos arguments callStart start g :
  length (InstructionMetadata.parameters instrInfos) <= length arguments ->
  exists call g',
    GenerateCompoundOperatorCall instrInfos arguments callStart start g
    = Some (call, g')
    /\ (valueMissing instrInfos start ->
        call = ""%string /\ g' = setErrorOccurred g)
    /\ (~ valueMissing instrInfos start -> call <> ""%string /\ g' = g).
Proof.
  intros Hcover. unfold valueMissing.
  destruct (decide (length (InstructionMetadata.parameters instrInfos)
                    <= scanParameters "operator"
                         (InstructionMetadata.parameters instrInfos) start
                       + 1)) as [Hmissing|Hvalue].
  - exists ""%string, (setErrorOccurred g).
    split; [|split; [done | intros Hnot; by destruct Hnot]].
    by apply (proj2 (builders_report instrInfos arguments callStart
                       ""%string start g)).
  - destruct (lookup_lt_is_Some_2 arguments
                (scanParameters "operator"
                   (InstructionMetadata.parameters instrInfos) start)
                ltac:(lia)) as [argument Hargument].
    destruct (lookup_lt_is_Some_2 arguments
                (scanParameters "operator"
                   (InstructionMetadata.parameters instrInfos) start + 1)
                ltac:(lia)) as [rhs Hrhs].
    eexists _, g. split; [|split; [done |]].
    + apply (compound_call instrInfos arguments callStart start g
               argument rhs); [lia | done | done].
    + intros _. split; [|done].
      apply (append_cons_nonempty callStart "(").
Qed.

Lemma mutator_result instrInfos arguments callStart start g :
  length (InstructionMetadata.parameters instrInfos) <= length arguments ->
  exists call g',
    GenerateMutatorCall instrInfos arguments callStart start g
    = Some (call, g')
    /\ (valueMissing instrInfos start
        \/ mutatorMissing instrInfos arguments start ->
        call = ""%string /\ g' = setErrorOccurred g)
    /\ (~ (valueMissing instrInfos start
           \/ mutatorMissing instrInfos arguments start) ->
        call <> ""%string /\ g' = g).
Proof.
  intros Hcover. unfold valueMissing, mutatorMissing.
  destruct (decide (length (InstructionMetadata.parameters instrInfos)
                    <= scanParameters "operator"
                         (InstructionMetadata.parameters instrInfos) start
                       + 1)) as [Hmissing|Hvalue].
  - exists ""%string, (setErrorOccurred g).
    split; [|split; [done | intros Hnot; destruct Hnot; by left]].
    by apply (proj2 (builders_report instrInfos arguments callStart
                       ""%string start g)).
  - destruct (lookup_lt_is_Some_2 arguments
                (scanParameters "operator"
                   (InstructionMetadata.parameters instrInfos) start)
                ltac:(lia)) as [argument Hargument].
    destruct (lookup_lt_is_Some_2 arguments
                (scanParameters "operator"
                   (InstructionMetadata.parameters instrInfos) start + 1)
                ltac:(lia)) as [rhs Hrhs].
    pose proof (mutator_call instrInfos arguments callStart start g
                  argument rhs ltac:(lia) Hargument Hrhs) as Hcall.
    cbv zeta in Hcall.
    destruct (ExtraInformation.optionalMutators
                (InstructionMetadata.codeExtraInformation instrInfos)
                !! readOperator argument) as [mutator|] eqn:Hmutator.
    + eexists _, g. split; [exact Hcall |]. split.
      * intros [Hmissing|(argument' & Hargument' & Hunknown)]; [lia |].
        rewrite Hargument in Hargument'.
        injection Hargument' as <-. by rewrite Hmutator in Hunknown.
      * intros _. split; [|done].
        apply (append_cons_nonempty callStart "(").
    + exists ""%string, (setErrorOccurred g). split; [exact Hcall |].
      split; [done |]. intros Hnot. destruct Hnot. right. by exists argument.
Qed.

(** The case of one builder called from the third argument. *)
Local Ltac member_case result :=
  let call := fresh "call" in
  let g' := fresh "g'" in
  let Hcall := fresh "Hcall" in
  let Hfails := fresh "Hfails" in
  let Hworks := fresh "Hworks" in
  destruct result as (call & g' & Hcall & Hfails & Hworks);
  exists call, g'; unfold bind at 1; rewrite Hcall;
  (split; [done |]); (split; [done |]); split;
  [ intros [_ ?]; by apply Hfails
  | intros Hnot; apply Hworks; intros ?; by apply Hnot ].

(** X13. With at least as many arguments as the metadata has parameters,
    each of the three actions returns one statement around one call: the
    call, a semicolon and a line feed for a free action, the call after the
    picked object for an object action, and the call between the picked
    object and the behavior for a behavior action.  For an instruction on a
    number or a string the call is what the builder of its access type
    returns, from the first argument for a free action and from the third
    for the two others, which never use the table of mutators; for another
    instruction it is the function applied to the arguments, written once
    by a free action and followed by the arguments a second time by the two
    others.  The statement is written even when there is no call: the call
    is empty and the error flag is set exactly when the instruction is on a
    number or a string and no value follows the operator found from the
    start index or, for a free action with mutators, the operator read is
    no key of the table; in every other case the call is not empty and the
    generator is the one given. *)
Theorem actions_outcome :
  forall (objectName behaviorName : string) (objInfo : ObjectMetadata)
         (autoInfo : BehaviorMetadata) arguments instrInfos
         (context : EventsCodeGenerationContext) g,
    let info := InstructionMetadata.codeExtraInformation instrInfos in
    let name := functionCallName instrInfos in
    let getter := ExtraInformation.optionalAssociatedInstruction info in
    length (InstructionMetadata.parameters instrInfos) <= length arguments ->
    (exists call g',
        GenerateFreeAction arguments instrInfos context g
        = Some (call +:+ ";" +:+ LF, g')
        /\ (if isNumberOrString instrInfos
            then match ExtraInformation.accessType info with
                 | ExtraInformation.MutatorAndOrAccessor =>
                     GenerateOperatorCall instrInfos arguments name getter 0 g
                 | ExtraInformation.Mutators =>
                     GenerateMutatorCall instrInfos arguments name 0 g
                 | _ =>
                     GenerateCompoundOperatorCall instrInfos arguments name
                       0 g
                 end = Some (call, g')
            else call = name +:+ "(" +:+ GenerateArgumentsList arguments 0
                        +:+ ")")
        /\ (freeActionFails instrInfos arguments ->
            call = ""%string /\ g' = setErrorOccurred g)
        /\ (~ freeActionFails instrInfos arguments ->
            call <> ""%string /\ g' = g))
    /\ (exists call g',
           GenerateObjectAction objectName objInfo arguments instrInfos
             context g
           = Some ("For each picked object " +:+ DQ +:+ objectName +:+ DQ
                   +:+ ", call " +:+ call +:+ "." +:+ LF, g')
           /\ (if isNumberOrString instrInfos
               then match ExtraInformation.accessType info with
                    | ExtraInformation.MutatorAndOrAccessor =>
                        GenerateOperatorCall instrInfos arguments name getter
                          2 g
                    | _ =>
                        GenerateCompoundOperatorCall instrInfos arguments name
                          2 g
                    end = Some (call, g')
               else call = name +:+ "(" +:+ GenerateArgumentsList arguments 1
                           +:+ ")" +:+ "("
                           +:+ GenerateArgumentsList arguments 1 +:+ ")")
           /\ (memberActionFails instrInfos ->
               call = ""%string /\ g' = setErrorOccurred g)
           /\ (~ memberActionFails instrInfos ->
               call <> ""%string /\ g' = g))
    /\ (exists call g',
           GenerateBehaviorAction objectName behaviorName autoInfo arguments
             instrInfos context g
           = Some ("For each picked object " +:+ DQ +:+ objectName +:+ DQ
                   +:+ ", call " +:+ call +:+ " for behavior " +:+ DQ
                   +:+ behaviorName +:+ DQ +:+ "." +:+ LF, g')
           /\ (if isNumberOrString instrInfos
               then match ExtraInformation.accessType info with
                    | ExtraInformation.MutatorAndOrAccessor =>
                        GenerateOperatorCall instrInfos arguments name getter
                          2 g
                    | _ =>
                        GenerateCompoundOperatorCall instrInfos arguments name
                          2 g
                    end = Some (call, g')
               else call = name +:+ "(" +:+ GenerateArgumentsList arguments 2
                           +:+ ")" +:+ "("
                           +:+ GenerateArgumentsList arguments 2 +:+ ")")
           /\ (memberActionFails instrInfos ->
               call = ""%string /\ g' = setErrorOccurred g)
           /\ (~ memberActionFails instrInfos ->
               call <> ""%string /\ g' = g)).
Proof.
  intros objectName behaviorName objInfo autoInfo arguments instrInfos
    context g info name getter Hcover.
  pose proof (fun start =>
                operator_result instrInfos arguments name getter start g
                  Hcover) as Hoperator.
  pose proof (fun start =>
                compound_result instrInfos arguments name start g Hcover)
    as Hcompound.
  pose proof (mutator_result instrInfos arguments name 0 g Hcover)
    as Hmutator.
  unfold freeActionFails, memberActionFails.
  split; [|split].
  - unfold GenerateFreeAction. fold info. fold name. fold getter.
    destruct (isNumberOrString instrInfos).
    + destruct (ExtraInformation.accessType info).
      * destruct (Hcompound 0) as (call & g' & Hcall & Hfails & Hworks).
        exists call, g'. unfold bind at 1. rewrite Hcall.
        split; [done |]. split; [done |]. split.
        -- intros (_ & [Hmissing|[Haccess _]]); [by apply Hfails | done].
        -- intros Hnot. apply Hworks. intros Hmissing. apply Hnot.
           split; [done | by left].
      * destruct (Hoperator 0) as (call & g' & Hcall & Hfails & Hworks).
        exists call, g'. unfold bind at 1. rewrite Hcall.
        split; [done |]. split; [done |]. split.
        -- intros (_ & [Hmissing|[Haccess _]]); [by apply Hfails | done].
        -- intros Hnot. apply Hworks. intros Hmissing. apply Hnot.
           split; [done | by left].
      * destruct Hmutator as (call & g' & Hcall & Hfails & Hworks).
        exists call, g'. unfold bind at 1. rewrite Hcall.
        split; [done |]. split; [done |]. split.
        -- intros (_ & [Hmissing|[_ Hunknown]]); apply Hfails;
             [by left | by right].
        -- intros Hnot. apply Hworks. intros [Hmissing|Hunknown]; apply Hnot.
           ++ split; [done | by left].
           ++ split; [done |]. right. by split.
    + eexists _, g. split; [reflexivity |]. split; [done |].
      split; [by intros [? _] |]. intros _. split; [|done].
      apply (append_cons_nonempty name "(").
  - unfold GenerateObjectAction. fold info. fold name. fold getter.
    destruct (isNumberOrString instrInfos).
    + destruct (ExtraInformation.accessType info);
        [member_case (Hcompound 2) | member_case (Hoperator 2)
        | member_case (Hcompound 2)].
    + exists (name +:+ "(" +:+ GenerateArgumentsList arguments 1 +:+ ")"
              +:+ "(" +:+ GenerateArgumentsList arguments 1 +:+ ")"), g.
      split; [|split; [done |]].
      * unfold ret. cbv zeta. do 2 f_equal.
        rewrite !append_assoc. reflexivity.
      * split; [by intros [? _] |]. intros _. split; [|done].
        apply (append_cons_nonempty name "(").
  - unfold GenerateBehaviorAction. fold info. fold name. fold getter.
    destruct (isNumberOrString instrInfos).
    + destruct (ExtraInformation.accessType info);
        [member_case (Hcompound 2) | member_case (Hoperator 2)
        | member_case (Hcompound 2)].
    + exists (name +:+ "(" +:+ GenerateArgumentsList arguments 2 +:+ ")"
              +:+ "(" +:+ GenerateArgumentsList arguments 2 +:+ ")"), g.
      split; [|split; [done |]].
      * unfold ret. cbv zeta. do 2 f_equal.
        rewrite !append_assoc. reflexivity.
      * split; [by intros [? _] |]. intros _. split; [|done].
        apply (append_cons_nonempty name "(").
Qed.

End ActionOutcomes.

Lemma actions_outcome_witness :
  GenerateFreeAction [DQ +:+ "-" +:+ DQ; "5"%string] scaleNumber
    noCurrentObject freshGenerator
  = Some (";" +:+ LF, setErrorOccurred freshGenerator)
  /\ GenerateFreeAction [DQ +:+ "+" +:+ DQ; "5"%string] scaleNumber
       noCurrentObject freshGenerator
     = Some ("Scale().add(5);" +:+ LF, freshGenerator)
  /\ GenerateObjectAction "Hero" {| className := "Sprite"; includeFiles := [] |}
       ["Hero"%string; "x"%string; DQ +:+ "+" +:+ DQ; "5"%string]
       setNumberNamed noCurrentObject freshGenerator
     = Some ("For each picked object " +:+ DQ +:+ "Hero" +:+ DQ
             +:+ ", call Set(Get() + (5))." +:+ LF, freshGenerator)
  /\ GenerateBehaviorAction "Hero" "Walk" {| behaviorIncludeFiles := [] |}
       ["Hero"%string; DQ +:+ "+" +:+ DQ; "5"%string]
       setNumberOf noCurrentObject freshGenerator
     = Some ("For each picked object " +:+ DQ +:+ "Hero" +:+ DQ
             +:+ ", call  for behavior " +:+ DQ +:+ "Walk" +:+ DQ
             +:+ "." +:+ LF, setErrorOccurred freshGenerator).
Proof.
  split; [|split; [|split]].
  - destruct (proj1 (actions_outcome "Hero" "Walk"
                       {| className := "Sprite"; includeFiles := [] |}
                       {| behaviorIncludeFiles := [] |}
                       [DQ +:+ "-" +:+ DQ; "5"%string] scaleNumber
                       noCurrentObject freshGenerator ltac:(simpl; lia)))
      as (call & g' & Hrun & _ & Hfails & _).
    destruct Hfails as [Hcall Hg'].
    { split; [reflexivity |]. right. split; [reflexivity |].
      exists (DQ +:+ "-" +:+ DQ). split; reflexivity. }
    rewrite Hrun, Hcall, Hg'. reflexivity.
  - destruct (proj1 (actions_outcome "Hero" "Walk"
                       {| className := "Sprite"; includeFiles := [] |}
                       {| behaviorIncludeFiles := [] |}
                       [DQ +:+ "+" +:+ DQ; "5"%string] scaleNumber
                       noCurrentObject freshGenerator ltac:(simpl; lia)))
      as (call & g' & Hrun & Hcall & _ & _).
    vm_compute in Hcall. injection Hcall as <- <-. exact Hrun.
  - destruct (proj1 (proj2 (actions_outcome "Hero" "Walk"
                              {| className := "Sprite"; includeFiles := [] |}
                              {| behaviorIncludeFiles := [] |}
                              ["Hero"%string; "x"%string; DQ +:+ "+" +:+ DQ;
                               "5"%string]
                              setNumberNamed noCurrentObject freshGenerator
                              ltac:(simpl; lia))))
      as (call & g' & Hrun & Hcall & _ & _).
    vm_compute in Hcall. injection Hcall as <- <-. exact Hrun.
  - destruct (proj2 (proj2 (actions_outcome "Hero" "Walk"
                              {| className := "Sprite"; includeFiles := [] |}
                              {| behaviorIncludeFiles := [] |}
                              ["Hero"%string; DQ +:+ "+" +:+ DQ; "5"%string]
                              setNumberOf noCurrentObject freshGenerator
                              ltac:(simpl; lia))))
      as (call & g' & Hrun & _ & Hfails & _).
    destruct Hfails as [Hcall Hg'].
    { split; [reflexivity |]. unfold valueMissing. simpl. lia. }
    rewrite Hrun, Hcall, Hg'. reflexivity.
Defined.

(** ** The size of the lists of conditions *)

Section ConditionsListFrame.
Context `{Collaborators}.
Variable GenerateConditionCode :
  Instruction -> string -> EventsCodeGenerationContext -> Generator ->
  string * Instruction * EventsCodeGenerationContext * Generator.

Lemma conditionsLoop_frame (conditions : list Instruction) (cId : nat)
    (out : string) (context : EventsCodeGenerationContext) (g : Generator) :
  (forall condition returnBoolean context g,
      maxConditionsListsSize g
      <= maxConditionsListsSize
           (GenerateConditionCode condition returnBoolean context g).2) ->
  length (conditionsLoop GenerateConditionCode cId conditions out context g).1.1.2
  = length conditions
  /\ maxConditionsListsSize g
     <= maxConditionsListsSize
          (conditionsLoop GenerateConditionCode cId conditions out context g).2.
Proof.
  intros Hkeeps. revert cId out context g.
  induction conditions as [|condition rest IH]; intros cId out context g;
    [done |].
  simpl. pose proof (Hkeeps condition (conditionIsTrue cId) context g) as Hone.
  destruct (GenerateConditionCode condition (conditionIsTrue cId) context g)
    as [[[conditionCode condition'] context'] g'].
  match goal with
  | |- context [conditionsLoop _ (S cId) rest ?o context' g'] =>
      specialize (IH (S cId) o context' g');
      destruct (conditionsLoop GenerateConditionCode (S cId) rest o context' g')
        as [[[out' rest'] context''] g'']
  end.
  simpl in *. destruct IH as [-> Hrest]. split; [done | lia].
Qed.

(** X14. A list of conditions comes back with as many conditions as it had,
    and when the code of one condition never lowers the recorded size of the
    largest list, neither does the list: afterwards the record is at least
    what it was and at least the number of conditions of this list.  The
    empty list gives the empty text and leaves the context and the generator
    as they were. *)
Theorem conditions_list_frame :
  forall (conditions : list Instruction)
         (context : EventsCodeGenerationContext) (g : Generator),
    (forall condition returnBoolean context g,
        maxConditionsListsSize g
        <= maxConditionsListsSize
             (GenerateConditionCode condition returnBoolean context g).2) ->
    length (GenerateConditionsListCode GenerateConditionCode conditions
              context g).1.1.2
    = length conditions
    /\ Nat.max (maxConditionsListsSize g) (length conditions)
       <= maxConditionsListsSize
            (GenerateConditionsListCode GenerateConditionCode conditions
               context g).2
    /\ GenerateConditionsListCode GenerateConditionCode [] context g
       = (""%string, [], context, g).
Proof.
  intros conditions context g Hkeeps. unfold GenerateConditionsListCode.
  match goal with
  | |- context [conditionsLoop _ 0 conditions ?o context g] =>
      pose proof (conditionsLoop_frame conditions 0 o context g Hkeeps)
        as [Hlength Hsize];
      destruct (conditionsLoop GenerateConditionCode 0 conditions o context g)
        as [[[out conditions'] context'] g']
  end.
  simpl in *. split; [done |]. split; [lia |].
  rewrite Nat.max_0_r. by destruct g.
Qed.

End ConditionsListFrame.

Lemma conditions_list_frame_witness :
  length (@GenerateConditionsListCode samplePlatform sampleConditionCode
            [conditionOfType "A"; conditionOfType ""; conditionOfType "B"]
            noCurrentObject freshGenerator).1.1.2
  = 3
  /\ 3 <= maxConditionsListsSize
            (@GenerateConditionsListCode samplePlatform sampleConditionCode
               [conditionOfType "A"; conditionOfType ""; conditionOfType "B"]
               noCurrentObject freshGenerator).2.
Proof.
  pose proof (@conditions_list_frame samplePlatform sampleConditionCode
                [conditionOfType "A"; conditionOfType ""; conditionOfType "B"]
                noCurrentObject freshGenerator
                ltac:(intros; simpl; lia)) as (Hlength & Hsize & _).
  split; [exact Hlength | exact Hsize].
Defined.

(** ** Identifiers of the lists of events *)

Section EventsListIds.

Implicit Types (g : Generator).

Lemma events_list_ids_run (calls : nat) :
  forall g,
    (Z.of_nat (eventsListNextUniqueId g) + Z.of_nat calls < 2 ^ 64)%Z ->
    eventsListIds calls g
    = Some (seq (eventsListNextUniqueId g) calls,
            setEventsListNextUniqueId (eventsListNextUniqueId g + calls) g).
Proof.
  induction calls as [|calls IH]; intros g Hroom.
  - simpl. unfold ret. rewrite Nat.add_0_r. by destruct g.
  - simpl. unfold bind at 1. unfold GenerateSingleUsageUniqueIdForEventsList.
    rewrite Z.mod_small by lia.
    replace (Z.to_nat (Z.of_nat (eventsListNextUniqueId g) + 1))
      with (S (eventsListNextUniqueId g)) by lia.
    unfold bind at 1. rewrite IH by (simpl; lia). simpl. unfold ret.
    replace (eventsListNextUniqueId g + S calls)
      with (S (eventsListNextUniqueId g + calls)) by lia.
    reflexivity.
Qed.

(** X15. As long as the counter stays below two to the sixty-four, [calls]
    requests for an identifier of a list of events return the counter and
    the values after it, one by one: they are pairwise distinct, and the
    generator ends with its counter moved by [calls] and nothing else
    changed.  The counter and the identifiers of instructions do not touch
    each other: asking for one of each gives the same pair and the same
    generator in either order. *)
Theorem events_list_ids :
  forall (calls : nat) g,
    (Z.of_nat (eventsListNextUniqueId g) + Z.of_nat calls < 2 ^ 64)%Z ->
    eventsListIds calls g
    = Some (seq (eventsListNextUniqueId g) calls,
            setEventsListNextUniqueId (eventsListNextUniqueId g + calls) g)
    /\ NoDup (seq (eventsListNextUniqueId g) calls)
    /\ (forall (fuel : nat) (instruction : Z),
           (let* listId := GenerateSingleUsageUniqueIdForEventsList in
            let* uniqueId := GenerateSingleUsageUniqueIdFor fuel instruction in
            ret (listId, uniqueId)) g
           = (let* uniqueId := GenerateSingleUsageUniqueIdFor fuel instruction in
              let* listId := GenerateSingleUsageUniqueIdForEventsList in
              ret (listId, uniqueId)) g).
Proof.
  intros calls g Hroom.
  split; [by apply events_list_ids_run |].
  split; [apply NoDup_seq |].
  intros fuel instruction.
  unfold bind, GenerateSingleUsageUniqueIdForEventsList,
    GenerateSingleUsageUniqueIdFor, ret.
  simpl. by destruct (firstUnusedId fuel (instructionUniqueIds g) instruction).
Qed.

End EventsListIds.

Lemma events_list_ids_witness :
  eventsListIds 3 freshGenerator
  = Some ([0; 1; 2], setEventsListNextUniqueId 3 freshGenerator).
Proof.
  exact (proj1 (events_list_ids 3 freshGenerator ltac:(vm_compute; reflexivity))).
Defined.

(** ** Lists of actions *)

Section ActionsListFacts.
Variable GenerateActionCode :
  Instruction -> EventsCodeGenerationContext -> Generator ->
  string * Instruction * EventsCodeGenerationContext * Generator.

Lemma actionsLoop_code (actions : list Instruction) (out : string)
    (context : EventsCodeGenerationContext) (g : Generator) :
  actionsLoop GenerateActionCode actions out context g
  = (out +:+ (GenerateActionsListCode GenerateActionCode actions context g).1.1.1,
     (GenerateActionsListCode GenerateActionCode actions context g).1.1.2,
     (GenerateActionsListCode GenerateActionCode actions context g).1.2,
     (GenerateActionsListCode GenerateActionCode actions context g).2).
Proof.
  unfold GenerateActionsListCode. revert out context g.
  induction actions as [|action rest IH]; intros out context g; simpl.
  - by rewrite append_nil_r.
  - destruct (GenerateActionCode action context g)
      as [[[actionCode action'] context'] g'].
    rewrite (IH ((if empty (GetType action')
                  then (out +:+ "{") +:+ "/* Skipped action (empty type) */"
                  else (out +:+ "{") +:+ actionCode) +:+ "}")).
    rewrite (IH ((if empty (GetType action')
                  then "{" +:+ "/* Skipped action (empty type) */"
                  else "{" +:+ actionCode) +:+ "}")).
    simpl. destruct (empty (GetType action')); by rewrite !append_assoc.
Qed.

Lemma actions_code_blocks (actions : list Instruction)
    (context : EventsCodeGenerationContext) (g : Generator) :
  (GenerateActionsListCode GenerateActionCode actions context g).1.1.1
  = concatStrings (bracedAction <$> actionCodes GenerateActionCode actions
                                      context g)
  /\ (GenerateActionsListCode GenerateActionCode actions context g).1.1.2
     = snd <$> actionCodes GenerateActionCode actions context g
  /\ length (actionCodes GenerateActionCode actions context g)
     = length actions.
Proof.
  revert context g.
  induction actions as [|action rest IH]; intros context g; [done |].
  unfold GenerateActionsListCode. simpl.
  destruct (GenerateActionCode action context g)
    as [[[actionCode action'] context'] g'].
  rewrite actionsLoop_code. simpl.
  destruct (IH context' g') as (-> & -> & ->).
  split; [|done]. unfold bracedAction. simpl.
  destruct (empty (GetType action')); by rewrite !append_assoc.
Qed.

(** X16. The code of a list of actions is one block per action, in order:
    an opening brace, the code of the action or, when its type is empty once
    its code is generated, the skip marker, and a closing brace.  The list
    comes back with as many actions as it had.  Compiling two lists put
    together is compiling the first and then the second from the context and
    the generator the first has left, with the two texts put together; the
    empty list gives the empty text and changes nothing. *)
Theorem actions_list_code :
  forall (actions others : list Instruction)
         (context : EventsCodeGenerationContext) (g : Generator),
  let first := GenerateActionsListCode GenerateActionCode actions context g in
  let second :=
    GenerateActionsListCode GenerateActionCode others first.1.2 first.2 in
  first.1.1.1
  = concatStrings (bracedAction <$> actionCodes GenerateActionCode actions
                                      context g)
  /\ first.1.1.2 = snd <$> actionCodes GenerateActionCode actions context g
  /\ length first.1.1.2 = length actions
  /\ GenerateActionsListCode GenerateActionCode (actions ++ others) context g
     = (first.1.1.1 +:+ second.1.1.1, first.1.1.2 ++ second.1.1.2,
        second.1.2, second.2)
  /\ GenerateActionsListCode GenerateActionCode [] context g
     = (""%string, [], context, g).
Proof.
  intros actions others context g first second. subst first second.
  destruct (actions_code_blocks actions context g) as (Hcode & Hlist & Hlength).
  split; [done |]. split; [done |].
  split; [by rewrite Hlist, length_fmap |]. split; [|done].
  clear Hcode Hlist Hlength. revert context g.
  induction actions as [|action rest IH]; intros context g.
  - simpl.
    by destruct (GenerateActionsListCode GenerateActionCode others context g)
      as [[[out others'] context'] g'].
  - unfold GenerateActionsListCode in *. simpl.
    destruct (GenerateActionCode action context g)
      as [[[actionCode action'] context'] g'].
    rewrite !(actionsLoop_code _ (_ +:+ "}")).
    unfold GenerateActionsListCode. rewrite IH. simpl.
    by rewrite !append_assoc.
Qed.

End ActionsListFacts.
